(** * A media relay bot: classification, fan-out with retry, registries

    Shallow embedding of [bot.py] (the distribution side: classifier,
    [send_media], [monitor_folder], the owner commands on [chat_ids]) and of
    the media handler of [users/login.py] (the ingestion side).

    Conventions of the embedding.
    - Identifiers are Python [int]s, hence [Z].
    - A staged file is named by the last component of its path (the entries
      of [downloads_folder.iterdir()] all live in that one folder).  A name
      is a [string] of 8-bit characters; [str.lower] acts on [A]-[Z].
    - Everything the program asks of the outside world (the [ffprobe]
      subprocess, [asyncio.sleep], a Telegram send, [unlink], [rmtree], the
      value of the global [chat_ids] at the moment it is read) is answered by
      an oracle over an abstract world, and every such request is recorded,
      in program order, in a trace of events.  Calls to [logger] are not
      recorded.
    - [try]/[except Exception] blocks are embedded through the outcome the
      oracle reports: an outcome is either the normal result or the
      exception class that the handler catches. *)

From stdpp Require Import gmap strings list.
From Stdlib Require Import ZArith Ascii String DecimalString DecimalPos DecimalZ.

Open Scope string_scope.

#[local] Set Warnings "-clear-no-such-hyp".

(** ** Strings and path components *)

Module Str.

Definition is_upper (c : ascii) : bool :=
  let n := nat_of_ascii c in (65 <=? n)%nat && (n <=? 90)%nat.

Definition lower_char (c : ascii) : ascii :=
  if is_upper c then ascii_of_nat (nat_of_ascii c + 32) else c.

(** [str.lower] *)
Fixpoint lower (s : string) : string :=
  match s with
  | EmptyString => EmptyString
  | String c s' => String (lower_char c) (lower s')
  end.

(** [str.isspace] on one character, for code points below 256. *)
Definition isspace (c : ascii) : bool :=
  let n := nat_of_ascii c in
  ((9 <=? n)%nat && (n <=? 13)%nat) || ((28 <=? n)%nat && (n <=? 32)%nat)
  || (n =? 133)%nat || (n =? 160)%nat.

Fixpoint lstrip (s : string) : string :=
  match s with
  | EmptyString => EmptyString
  | String c s' => if isspace c then lstrip s' else s
  end.

Fixpoint rstrip (s : string) : string :=
  match s with
  | EmptyString => EmptyString
  | String c s' =>
      match rstrip s' with
      | EmptyString => if isspace c then EmptyString else String c EmptyString
      | r => String c r
      end
  end.

(** [str.strip()] with no argument *)
Definition strip (s : string) : string := rstrip (lstrip s).

(** Truth value of a [str]: non-empty. *)
Definition truthy (s : string) : bool :=
  match s with EmptyString => false | String _ _ => true end.

(** [str.rfind(c)]: index of the last occurrence; [None] stands for [-1]. *)
Fixpoint rfind (c : ascii) (s : string) : option nat :=
  match s with
  | EmptyString => None
  | String d s' =>
      match rfind c s' with
      | Some i => Some (S i)
      | None => if Ascii.eqb d c then Some 0%nat else None
      end
  end.

(** [str.endswith] *)
Definition endswith (s suf : string) : bool :=
  let n := String.length s in
  let k := String.length suf in
  (k <=? n)%nat && String.eqb (substring (n - k) k s) suf.

(** [html.escape(s)] with its default [quote=True]; character 34 is the
    double quote and 39 the apostrophe. *)
Definition escape_char (c : ascii) : string :=
  if Ascii.eqb c "&" then "&amp;"
  else if Ascii.eqb c "<" then "&lt;"
  else if Ascii.eqb c ">" then "&gt;"
  else if Ascii.eqb c "034" then "&quot;"
  else if Ascii.eqb c "039" then "&#x27;"
  else String c EmptyString.

Fixpoint escape (s : string) : string :=
  match s with
  | EmptyString => EmptyString
  | String c s' => escape_char c ++ escape s'
  end.

End Str.

(** [pathlib.PurePath.suffix] and [.stem] of a file name, as defined up to
    Python 3.12: with [i = name.rfind('.')], the suffix is [name[i:]] when
    [0 < i < len(name) - 1] and empty otherwise. *)
Module Path.

Definition split_at (name : string) : option nat :=
  match Str.rfind "." name with
  | Some i =>
      if (0 <? i)%nat && (i <? String.length name - 1)%nat then Some i else None
  | None => None
  end.

Definition suffix (name : string) : string :=
  match split_at name with
  | Some i => substring i (String.length name - i) name
  | None => ""
  end.

Definition stem (name : string) : string :=
  match split_at name with
  | Some i => substring 0 i name
  | None => name
  end.

End Path.

(** ** Allowed file extensions *)

Definition photo_ext : gset string := {[ ".jpg"; ".jpeg"; ".png" ]}.
Definition video_ext : gset string := {[ ".mp4"; ".mov"; ".avi"; ".mkv" ]}.
Definition animation_ext : gset string := {[ ".gif"; ".webm" ]}.
Definition sticker_ext : gset string := {[ ".webp" ]}.
Definition voice_ext : gset string := {[ ".oga" ]}.
Definition music_ext : gset string := {[ ".mp3" ]}.
Definition allowed_extensions : gset string :=
  photo_ext ∪ video_ext ∪ animation_ext ∪ sticker_ext ∪ voice_ext ∪ music_ext.

(** ** The outside world *)

(** [method_name] of [send_media]; [send_method] and [param] are functions
    of it ([bot.send_photo] with [photo=], and so on). *)
Inductive method_name :=
  | photo | video | animation | voice | audio | sticker | document.

#[global] Instance method_name_eq_dec : EqDecision method_name.
Proof. solve_decision. Defined.

(** What [subprocess.run] does in [has_audio]: it raises (the executable is
    missing, say), or it returns a completed process with an exit status and
    the captured standard output. *)
Inductive probe_outcome :=
  | ProbeRaised
  | ProbeCompleted (returncode : Z) (stdout : string).

(** One [send_method(chat_id=..., **kwargs)] call together with the
    [open(file_path, 'rb')] around it. *)
Record send_request := SendRequest {
  sr_file : string;
  sr_method : method_name;
  sr_chat_id : Z;
  sr_filename : string;
  sr_caption : option string
}.

(** Outcome of the body of the [try] around one send. *)
Inductive send_outcome :=
  | Sent
  | RaisedTelegramError
  | RaisedException.

#[global] Instance send_outcome_eq_dec : EqDecision send_outcome.
Proof. solve_decision. Defined.

Inductive event :=
  | EvProbe (file : string) (o : probe_outcome)
  | EvSleep (seconds : nat)
  | EvSend (attempt : nat) (req : send_request) (o : send_outcome)
  | EvUnlink (file : string) (ok : bool)
  | EvRmtree (dir : string) (ok : bool).

Record Oracle (World : Type) := {
  run_ffprobe : string -> World -> probe_outcome * World;
  asyncio_sleep : nat -> World -> World;
  read_chat_ids : World -> list Z;
  send_call : send_request -> World -> send_outcome * World;
  path_unlink : string -> World -> bool * World;
  shutil_rmtree : string -> World -> bool * World
}.

Arguments run_ffprobe {World} _ _ _.
Arguments asyncio_sleep {World} _ _ _.
Arguments read_chat_ids {World} _ _.
Arguments send_call {World} _ _ _.
Arguments path_unlink {World} _ _ _.
Arguments shutil_rmtree {World} _ _ _.

(** ** A monad for effects: world passing, with the events emitted *)

Record result (World A : Type) := Result {
  value : A;
  world : World;
  events : list event
}.

Arguments Result {World A} _ _ _.
Arguments value {World A} _.
Arguments world {World A} _.
Arguments events {World A} _.

Definition M (World A : Type) : Type := World -> result World A.

Definition ret {World A} (a : A) : M World A := fun w => Result a w [].

Definition bind {World A B} (m : M World A) (k : A -> M World B) : M World B :=
  fun w =>
    let r1 := m w in
    let r2 := k (value r1) (world r1) in
    Result (value r2) (world r2) (events r1 ++ events r2).

Notation "x <- m ;; k" := (bind m (fun x => k))
  (at level 100, m at next level, right associativity).
Notation "m ;;; k" := (bind m (fun _ => k))
  (at level 100, right associativity).

(** ** [bot.py]: classifier and distribution engine *)

Section Bot.

Context {World : Type} (os : Oracle World).

Definition ffprobe (file : string) : M World probe_outcome :=
  fun w => let '(o, w') := run_ffprobe os file w in Result o w' [EvProbe file o].

Definition sleep (seconds : nat) : M World unit :=
  fun w => Result tt (asyncio_sleep os seconds w) [EvSleep seconds].

Definition chat_ids_now : M World (list Z) :=
  fun w => Result (read_chat_ids os w) w [].

Definition send (attempt : nat) (req : send_request) : M World send_outcome :=
  fun w => let '(o, w') := send_call os req w in Result o w' [EvSend attempt req o].

Definition unlink (file : string) : M World bool :=
  fun w => let '(ok, w') := path_unlink os file w in Result ok w' [EvUnlink file ok].

Definition rmtree (dir : string) : M World bool :=
  fun w => let '(ok, w') := shutil_rmtree os dir w in Result ok w' [EvRmtree dir ok].

(** [has_audio]: the [except Exception] branch returns [True]; otherwise
    the answer is [bool(result.stdout.strip())].  The exit status is not
    looked at. *)
Definition has_audio (file : string) : M World bool :=
  o <- ffprobe file ;;
  match o with
  | ProbeRaised => ret true
  | ProbeCompleted _ stdout => ret (Str.truthy (Str.strip stdout))
  end.

(** The [if]/[elif] chain that opens [send_media]. *)
Definition select_method (name : string) : M World method_name :=
  let ext := Str.lower (Path.suffix name) in
  if decide (ext ∈ photo_ext) then ret photo
  else if decide (ext ∈ video_ext) then
    if decide (ext = ".mp4") then
      b <- has_audio name ;;
      if b then ret video else ret animation
    else ret video
  else if decide (ext ∈ voice_ext) then ret voice
  else if decide (ext ∈ music_ext) then ret audio
  else if decide (ext ∈ animation_ext) then ret animation
  else if decide (ext ∈ sticker_ext) then ret sticker
  else ret document.

(** [caption]: every method but the sticker one gets the escaped file name
    in a [<code>] element. *)
Definition caption_of (m : method_name) (name : string) : option string :=
  if decide (m = sticker) then None
  else Some ("<code>" ++ Str.escape name ++ "</code>").

(** [new_filename] *)
Definition new_filename (ext : string) (m : method_name) (name : string) : string :=
  if bool_decide (ext ∈ ({[ ".mp4"; ".webm" ]} : gset string))
     && bool_decide (m = animation)
  then Path.stem name ++ ".gif"
  else name.

Definition request (name : string) (m : method_name) (chat_id : Z) : send_request :=
  let ext := Str.lower (Path.suffix name) in
  SendRequest name m chat_id (new_filename ext m name) (caption_of m name).

(** [for chat_id in list(pending_ids)]: [ids] is the list made of the set
    when the pass starts, [pending] the set as it shrinks.  A send that
    returns is followed by [pending_ids.remove(chat_id)]; a send that raises
    is caught and leaves the set alone. *)
Fixpoint for_chat_ids (name : string) (m : method_name) (attempt : nat)
    (ids : list Z) (pending : gset Z) : M World (gset Z) :=
  match ids with
  | [] => ret pending
  | chat_id :: rest =>
      o <- send attempt (request name m chat_id) ;;
      for_chat_ids name m attempt rest
        (match o with
         | Sent => pending ∖ {[ chat_id ]}
         | RaisedTelegramError | RaisedException => pending
         end)
  end.

(** [for attempt in range(1, 4)], as a recursion over the attempt numbers
    that remain; the first test of the body is the [break]. *)
Fixpoint for_attempts (name : string) (m : method_name) (attempts : list nat)
    (pending : gset Z) : M World (gset Z) :=
  match attempts with
  | [] => ret pending
  | attempt :: rest =>
      if decide (pending = ∅) then ret pending
      else
        pending' <- for_chat_ids name m attempt (elements pending) pending ;;
        (if decide (pending' = ∅) then ret tt else sleep 1) ;;;
        for_attempts name m rest pending'
  end.

Definition send_media (name : string) : M World unit :=
  m <- select_method name ;;
  sleep 3 ;;;
  ids <- chat_ids_now ;;
  for_attempts name m (seq 1 3) (list_to_set ids) ;;;
  unlink name ;;;
  ret tt.

(** The world in which [send_media] reads [chat_ids], the list it reads
    there, and its retry loop run from there. *)
Definition settled (name : string) (w : World) : World :=
  asyncio_sleep os 3 (world (select_method name w)).

Definition snapshot (name : string) (w : World) : list Z :=
  read_chat_ids os (settled name w).

Definition retries (name : string) (w : World) : result World (gset Z) :=
  for_attempts name (value (select_method name w)) (seq 1 3)
    (list_to_set (snapshot name w)) (settled name w).

(** What [is_file()] and [is_dir()] answer for an entry when the loop
    reaches it. *)
Inductive entry_kind := IsFile | IsDir | Neither.

(** Body of [for item in downloads_folder.iterdir()]. *)
Definition monitor_item (item : string * entry_kind) : M World unit :=
  let name := item.1 in
  match item.2 with
  | IsFile =>
      if decide (Str.lower (Path.suffix name) ∈ allowed_extensions)
      then send_media name
      else unlink name ;;; ret tt
  | IsDir => rmtree name ;;; ret tt
  | Neither => ret tt
  end.

Fixpoint for_items (items : list (string * entry_kind)) : M World unit :=
  match items with
  | [] => ret tt
  | item :: rest => monitor_item item ;;; for_items rest
  end.

(** One iteration of the [while True] of [monitor_folder], on the listing
    that [iterdir()] gives it. *)
Definition monitor_pass (items : list (string * entry_kind)) : M World unit :=
  for_items items ;;; sleep 5.

(** [monitor_folder] for as many iterations as there are listings. *)
Fixpoint monitor_folder (listings : list (list (string * entry_kind))) : M World unit :=
  match listings with
  | [] => ret tt
  | items :: rest => monitor_pass items ;;; monitor_folder rest
  end.

End Bot.

(** ** Durable JSON lists *)

(** What a JSON list file holds, as its readers see it: no file, a file
    that does not parse or whose value is not a list, or a list. *)
Inductive file_content :=
  | FileMissing
  | FileInvalid
  | FileList (l : list Z).

(** [list.remove(x)]: drops the first occurrence. *)
Fixpoint list_remove (x : Z) (l : list Z) : list Z :=
  match l with
  | [] => []
  | y :: l' => if decide (y = x) then l' else y :: list_remove x l'
  end.

(** ** [bot.py]: the owner's commands on the recipient list *)

Module Registry.

(** The global [chat_ids] and the content of [chat_ids.json]. *)
Record state := State {
  chat_ids : list Z;
  chat_ids_file : file_content
}.

(** Module start-up: how [chat_ids] is read from the file. *)
Definition load (file : file_content) : state :=
  match file with
  | FileList l => State l file
  | FileMissing | FileInvalid => State [] file
  end.

(** Whether the [open]/[json.dump] of [update_chat_ids_file] went through;
    when it raised, the file holds whatever the failed write made of it. *)
Inductive write_outcome :=
  | WriteOk
  | WriteFailed (remains : file_content).

(** [update_chat_ids_file]: the exception is logged and swallowed. *)
Definition update_chat_ids_file (w : write_outcome) (st : state) : state :=
  match w with
  | WriteOk => State (chat_ids st) (FileList (chat_ids st))
  | WriteFailed remains => State (chat_ids st) remains
  end.

Inductive reply :=
  | ReplyUsage
  | ReplyInvalidFormat
  | ReplyAlreadyInList (id : Z)
  | ReplyNotFound (id : Z)
  | ReplyDocument (content : file_content)
  | ReplyNotAList
  | ReplyParseFailed
  | ReplyPleaseSendJson.

(** [open(chat_ids_file, 'rb')] then [reply_document]: with no file the
    [open] raises and nothing is replied. *)
Definition reply_document (st : state) : list reply :=
  match chat_ids_file st with
  | FileMissing => []
  | content => [ReplyDocument content]
  end.

(** [context.args] as the handlers use it: empty, or a first argument with
    what [int(...)] made of it ([None] for a [ValueError]). *)
Inductive command_args :=
  | NoArgs
  | FirstArg (parsed : option Z).

Definition add_command (owner chat : Z) (args : command_args)
    (w : write_outcome) (st : state) : state * list reply :=
  if decide (chat ≠ owner) then (st, [])
  else
    match args with
    | NoArgs => (st, [ReplyUsage])
    | FirstArg None => (st, [ReplyInvalidFormat])
    | FirstArg (Some new_id) =>
        if decide (new_id ∈ chat_ids st) then (st, [ReplyAlreadyInList new_id])
        else
          let st' :=
            update_chat_ids_file w (State (chat_ids st ++ [new_id]) (chat_ids_file st)) in
          (st', reply_document st')
    end.

Definition remove_command (owner chat : Z) (args : command_args)
    (w : write_outcome) (st : state) : state * list reply :=
  if decide (chat ≠ owner) then (st, [])
  else
    match args with
    | NoArgs => (st, [ReplyUsage])
    | FirstArg None => (st, [ReplyInvalidFormat])
    | FirstArg (Some rem_id) =>
        if decide (rem_id ∈ chat_ids st) then
          let st' :=
            update_chat_ids_file w
              (State (list_remove rem_id (chat_ids st)) (chat_ids_file st)) in
          (st', reply_document st')
        else (st, [ReplyNotFound rem_id])
    end.

(** What [json.loads(json_data.decode(...))] makes of the upload. *)
Inductive payload :=
  | PayloadUnparsable
  | PayloadNotList
  | PayloadList (data : list Z).

(** [json_document_handler].  The [open] for the reply sits inside the
    [try]: with no file to open it raises, and the [except] branch replies
    that the JSON failed to parse; the list has been replaced by then. *)
Definition json_document_handler (owner chat : Z) (file_name : string)
    (p : payload) (w : write_outcome) (st : state) : state * list reply :=
  if decide (chat ≠ owner) then (st, [])
  else if Str.endswith file_name ".json" then
    match p with
    | PayloadList data =>
        let st' := update_chat_ids_file w (State data (chat_ids_file st)) in
        (st', match reply_document st' with
              | [] => [ReplyParseFailed]
              | replies => replies
              end)
    | PayloadNotList => (st, [ReplyNotAList])
    | PayloadUnparsable => (st, [ReplyParseFailed])
    end
  else (st, [ReplyPleaseSendJson]).

End Registry.

(** ** [users/login.py]: the media handler *)

Module Login.

(** [load_blocked_chat_ids]: the list in the file, or else an empty list
    after the file has been rewritten to hold one.  Returns the list and the
    file as it is left. *)
Definition load_blocked_chat_ids (file : file_content) : list Z * file_content :=
  match file with
  | FileList l => (l, file)
  | FileMissing | FileInvalid => ([], FileList [])
  end.

Inductive attribute :=
  | DocumentAttributeAnimation
  | DocumentAttributeVideo
  | DocumentAttributeOther.

Inductive media_type := gif | video.

Record message := Message {
  media : bool;
  sender_id : option Z;
  id : Z;
  document : option (list attribute)
}.

Record new_message := NewMessage {
  event_message : option message;
  chat_id : Z
}.

(** Truth value of [sender_id]: [None] and [0] are false. *)
Definition truthy_id (i : option Z) : option Z :=
  match i with
  | Some z => if decide (z = 0%Z) then None else Some z
  | None => None
  end.

(** [for attr in event.message.document.attributes], with its [break]. *)
Fixpoint scan_attributes (attrs : list attribute) (mt : option media_type)
    : option media_type :=
  match attrs with
  | [] => mt
  | DocumentAttributeAnimation :: _ => Some gif
  | DocumentAttributeVideo :: rest => scan_attributes rest (Some video)
  | DocumentAttributeOther :: rest => scan_attributes rest mt
  end.

(** [str(int)] *)
Definition str (z : Z) : string := NilEmpty.string_of_int (Z.to_int z).

Definition file_name_of (identifier message_id : Z) (mt : option media_type) : string :=
  let base_name := str identifier ++ "-" ++ str message_id in
  match mt with
  | Some gif => base_name ++ "-gif"
  | Some video => base_name ++ "-video"
  | None => base_name
  end.

(** The handler returns the paths it asks [download_media] to write (each
    such request stages at most one file) and the blocklist file as the
    reload left it. *)
Definition new_media_handler (event : new_message) (blocked_file : file_content)
    : list string * file_content :=
  match event_message event with
  | Some msg =>
      if media msg then
        let '(blocked, file') := load_blocked_chat_ids blocked_file in
        if bool_decide (chat_id event ∈ blocked)
           || match truthy_id (sender_id msg) with
              | Some s => bool_decide (s ∈ blocked)
              | None => false
              end
        then ([], file')
        else
          let identifier :=
            match truthy_id (sender_id msg) with
            | Some s => s
            | None => chat_id event
            end in
          let mt :=
            match document msg with
            | Some attrs => scan_attributes attrs None
            | None => None
            end in
          (["downloads/" ++ file_name_of identifier (id msg) mt], file')
      else ([], blocked_file)
  | None => ([], blocked_file)
  end.

End Login.

(** ** [bot.py]: clearing the downloads folder *)

Section Folder.

Context {World : Type} (os : Oracle World).

(** [clear_downloads_folder]: [rmtree] for what [is_dir()] says is a
    directory, [unlink] for everything else; an exception of either is
    logged and the loop goes on. *)
Fixpoint clear_downloads_folder (items : list (string * entry_kind)) : M World unit :=
  match items with
  | [] => ret tt
  | item :: rest =>
      (match item.2 with
       | IsDir => rmtree os item.1
       | IsFile | Neither => unlink os item.1
       end) ;;;
      clear_downloads_folder rest
  end.

(** [delete_command]; the value is whether "Downloads folder cleared." is
    replied. *)
Definition delete_command (owner chat : Z) (items : list (string * entry_kind))
    : M World bool :=
  if decide (chat ≠ owner) then ret false
  else clear_downloads_folder items ;;; ret true.

End Folder.

(** ** [users/login.py]: the [/ban] and [/unban] commands *)

Module Blocklist.

Inductive reply :=
  | ReplyUsage
  | ReplyInvalid
  | ReplyAlreadyBanned (id : Z)
  | ReplyBanned (id : Z)
  | ReplyNotBanned (id : Z)
  | ReplyUnbanned (id : Z)
  | SendFile (content : file_content).

(** [event.message.text.split()] as the handlers use it: not two parts, or
    two parts with what [int(parts[1])] made of the second ([None] for a
    [ValueError]). *)
Inductive command_parts :=
  | NotTwoParts
  | TwoParts (parsed : option Z).

(** [save_blocked_chat_ids] followed by the replies of the handler.  The
    write is not inside a [try]: when it raises the handler stops there,
    nothing is replied, and the file holds what the failed write made of
    it. *)
Definition save_and_reply (w : Registry.write_outcome) (blocked : list Z)
    (notice : reply) : file_content * list reply :=
  match w with
  | Registry.WriteOk => (FileList blocked, [notice; SendFile (FileList blocked)])
  | Registry.WriteFailed remains => (remains, [])
  end.

Definition ban_handler (owner : Z) (sender : option Z) (parts : command_parts)
    (w : Registry.write_outcome) (file : file_content) : file_content * list reply :=
  if decide (sender ≠ Some owner) then (file, [])
  else
    match parts with
    | NotTwoParts => (file, [ReplyUsage])
    | TwoParts None => (file, [ReplyInvalid])
    | TwoParts (Some target_chat_id) =>
        let '(blocked, file') := Login.load_blocked_chat_ids file in
        if decide (target_chat_id ∈ blocked)
        then (file', [ReplyAlreadyBanned target_chat_id])
        else save_and_reply w (blocked ++ [target_chat_id])%list
               (ReplyBanned target_chat_id)
    end.

Definition unban_handler (owner : Z) (sender : option Z) (parts : command_parts)
    (w : Registry.write_outcome) (file : file_content) : file_content * list reply :=
  if decide (sender ≠ Some owner) then (file, [])
  else
    match parts with
    | NotTwoParts => (file, [ReplyUsage])
    | TwoParts None => (file, [ReplyInvalid])
    | TwoParts (Some target_chat_id) =>
        let '(blocked, file') := Login.load_blocked_chat_ids file in
        if decide (target_chat_id ∉ blocked)
        then (file', [ReplyNotBanned target_chat_id])
        else save_and_reply w (list_remove target_chat_id blocked)
               (ReplyUnbanned target_chat_id)
    end.

End Blocklist.

(** ** Scripted worlds, for running the embedding on concrete inputs *)

(** The world counts the sends made so far.  The probe always answers
    [probe], the recipient list is always [ids], the send number [n] (from
    0) to [chat_id] ends as [deliver n chat_id], deletions answer [del_ok]. *)
Definition scripted (probe : probe_outcome) (ids : list Z)
    (deliver : nat -> Z -> send_outcome) (del_ok : bool) : Oracle nat :=
  {| run_ffprobe := fun _ w => (probe, w);
     asyncio_sleep := fun _ w => w;
     read_chat_ids := fun _ => ids;
     send_call := fun req w => (deliver w (sr_chat_id req), S w);
     path_unlink := fun _ w => (del_ok, w);
     shutil_rmtree := fun _ w => (del_ok, w) |}.

Definition always (o : send_outcome) : nat -> Z -> send_outcome := fun _ _ => o.

(** Sends to [c] go through from send number [n] on; every other send
    raises a [TelegramError]. *)
Definition from_send (n : nat) (c : Z) : nat -> Z -> send_outcome :=
  fun k chat_id =>
    if bool_decide (chat_id = c) && (n <=? k)%nat then Sent else RaisedTelegramError.

(** A string holds a character that is not white space. *)
Fixpoint has_nonspace (s : string) : bool :=
  match s with
  | EmptyString => false
  | String c s' => negb (Str.isspace c) || has_nonspace s'
  end.

(** ** Reading a trace *)

(** The attempt number and outcome of [e] when [e] is a send to [c]. *)
Definition attempt_to (c : Z) (e : event) : option (nat * send_outcome) :=
  match e with
  | EvSend attempt req o =>
      if decide (sr_chat_id req = c) then Some (attempt, o) else None
  | _ => None
  end.

(** The sends to [c] in a trace, in order. *)
Definition attempts_to (c : Z) (evs : list event) : list (nat * send_outcome) :=
  omap (attempt_to c) evs.

Definition is_unlink (e : event) : bool :=
  match e with EvUnlink _ _ => true | _ => false end.

Definition is_send (e : event) : bool :=
  match e with EvSend _ _ _ => true | _ => false end.

(** The sends to one recipient over the attempts numbered [a], [a+1], ...,
    [a+n-1]: one send per attempt, in order, stopping after the first that
    is [Sent]. *)
Fixpoint attempts_shape (a n : nat) (l : list (nat * send_outcome)) : Prop :=
  match n with
  | O => l = []
  | S n' =>
      exists o l', l = (a, o) :: l' /\
        if decide (o = Sent) then l' = [] else attempts_shape (S a) n' l'
  end.

Definition is_deletion (e : event) : bool :=
  match e with EvUnlink _ _ | EvRmtree _ _ => true | _ => false end.

Definition is_probe (e : event) : bool :=
  match e with EvProbe _ _ => true | _ => false end.

(** Seconds asked of [asyncio.sleep] over a trace. *)
Fixpoint slept (evs : list event) : nat :=
  match evs with
  | [] => 0
  | EvSleep seconds :: rest => seconds + slept rest
  | _ :: rest => slept rest
  end.

(** The deletion that an entry calls for: what it is applied to and
    whether it is the recursive one. *)
Definition deletes (name : string) (recursive : bool) (e : event) : Prop :=
  if recursive then exists ok, e = EvRmtree name ok
  else exists ok, e = EvUnlink name ok.

(** A character is a decimal digit. *)
Definition is_digit (c : ascii) : bool :=
  let n := nat_of_ascii c in (48 <=? n)%nat && (n <=? 57)%nat.

(** What a send of the retry loop looks like: its attempt number is one of
    the loop, its recipient is pending, and the request is the one built for
    that recipient. *)
Definition loop_event (name : string) (m : method_name) (attempts : list nat)
    (pending : gset Z) (e : event) : Prop :=
  match e with
  | EvSend a req o =>
      a ∈ attempts /\ sr_chat_id req ∈ pending /\
      req = request name m (sr_chat_id req)
  | EvSleep seconds => seconds = 1
  | _ => False
  end.

Definition is_directory (k : entry_kind) : bool :=
  match k with IsDir => true | IsFile | Neither => false end.

(** The entry is there as a file or as a directory when the monitor reaches
    it. *)
Definition is_entry (k : entry_kind) : bool :=
  match k with IsFile | IsDir => true | Neither => false end.

(** The characters that [html.escape] replaces, apart from [&]. *)
Definition is_markup (c : ascii) : bool :=
  Ascii.eqb c "<" || Ascii.eqb c ">" || Ascii.eqb c "034" || Ascii.eqb c "039".

(** The registry is what a restart would read from the file. *)
Definition persisted (st : Registry.state) : Prop :=
  Registry.load (Registry.chat_ids_file st) = st.

#[global] Instance attribute_eq_dec : EqDecision Login.attribute.
Proof. solve_decision. Defined.

Fixpoint all_digits (s : string) : bool :=
  match s with
  | EmptyString => true
  | String c s' => is_digit c && all_digits s'
  end.

(** The string is empty or starts with a character that is not a digit. *)
Definition starts_nondigit (s : string) : bool :=
  match s with
  | EmptyString => true
  | String c _ => negb (is_digit c)
  end.

(** A decimal numeral as [str(int)] writes it: digits, at least one, after
    an optional minus sign. *)
Definition numeral (s : string) : Prop :=
  exists ds, all_digits ds = true /\ ds <> "" /\ (s = ds \/ s = String "-" ds).

(** * Properties *)

(** ** Stripping *)

Lemma truthy_rstrip s : Str.truthy (Str.rstrip s) = has_nonspace s.
Proof.
  induction s as [|c s IH]; simpl; [done|].
  destruct (Str.rstrip s) eqn:E; simpl in *.
  - rewrite <- IH. by destruct (Str.isspace c).
  - rewrite <- IH. by rewrite orb_true_r.
Qed.

Lemma has_nonspace_lstrip s : has_nonspace (Str.lstrip s) = has_nonspace s.
Proof.
  induction s as [|c s IH]; simpl; [done|].
  destruct (Str.isspace c) eqn:E; simpl; [done|]. by rewrite E.
Qed.

Lemma truthy_strip s : Str.truthy (Str.strip s) = has_nonspace s.
Proof. unfold Str.strip. by rewrite truthy_rstrip, has_nonspace_lstrip. Qed.

(** ** The classifier *)

Section Classifier.

Context {World : Type} (os : Oracle World).

Lemma has_audio_value file w :
  value (has_audio os file w) =
  match (run_ffprobe os file w).1 with
  | ProbeRaised => true
  | ProbeCompleted _ stdout => Str.truthy (Str.strip stdout)
  end.
Proof.
  unfold has_audio, bind, ffprobe.
  destruct (run_ffprobe os file w) as [[|rc out] w']; reflexivity.
Qed.

Lemma has_audio_events file w :
  events (has_audio os file w) = [EvProbe file (run_ffprobe os file w).1].
Proof.
  unfold has_audio, bind, ffprobe.
  destruct (run_ffprobe os file w) as [[|rc out] w']; reflexivity.
Qed.

Lemma select_method_mp4 name w :
  Str.lower (Path.suffix name) = ".mp4" ->
  select_method os name w =
  Result (if value (has_audio os name w) then video else animation)
    (world (has_audio os name w)) (events (has_audio os name w)).
Proof.
  intros E. unfold select_method. rewrite E.
  rewrite decide_False by (apply (bool_decide_eq_false_1 _); reflexivity).
  rewrite decide_True by (apply (bool_decide_eq_true_1 _); reflexivity).
  rewrite decide_True by reflexivity.
  unfold bind. destruct (has_audio os name w) as [[|] w' evs]; simpl;
    by rewrite app_nil_r.
Qed.

(** The [.mp4] branch, outcome by outcome: video when the stripped output
    of the probe is not empty, animation when it is empty, video when
    running the probe raises. *)
Lemma select_method_mp4_by_probe name w :
  Str.lower (Path.suffix name) = ".mp4" ->
  (forall rc out, (run_ffprobe os name w).1 = ProbeCompleted rc out ->
     Str.truthy (Str.strip out) = true ->
     value (select_method os name w) = video) /\
  (forall rc out, (run_ffprobe os name w).1 = ProbeCompleted rc out ->
     Str.truthy (Str.strip out) = false ->
     value (select_method os name w) = animation) /\
  ((run_ffprobe os name w).1 = ProbeRaised ->
     value (select_method os name w) = video).
Proof.
  intros E. rewrite (select_method_mp4 name w E). cbn [value].
  rewrite has_audio_value.
  repeat split.
  - intros rc out -> ->. reflexivity.
  - intros rc out -> ->. reflexivity.
  - intros ->. reflexivity.
Qed.

(** [has_audio], outcome by outcome: true when running the probe raises;
    when the subprocess completes, whatever its exit status, true exactly
    when its standard output holds a character that is not white space. *)
Lemma has_audio_by_stdout file w :
  value (has_audio os file w) =
  match (run_ffprobe os file w).1 with
  | ProbeRaised => true
  | ProbeCompleted _ stdout => has_nonspace stdout
  end.
Proof.
  rewrite has_audio_value.
  destruct (run_ffprobe os file w).1; [done|]. apply truthy_strip.
Qed.

(** C4, what the code does where the claim fails: when the probing
    subprocess completes with exit status [rc], zero or not, and its
    standard output holds nothing but white space, [has_audio] answers
    false.  The exit status is never read, so a probe that failed with a
    non-zero status and printed nothing is taken for a file without audio,
    where the claim, and the "Safer default" of the function's own [except]
    branch, ask for true. *)
Theorem C4_nonzero_exit_answers_false file w rc out :
  (run_ffprobe os file w).1 = ProbeCompleted rc out ->
  has_nonspace out = false ->
  value (has_audio os file w) = false.
Proof.
  intros Hrun Hblank. rewrite has_audio_by_stdout, Hrun. exact Hblank.
Qed.

(** C1, what the code does where the claim fails: for a file whose
    lower-cased suffix is [.mp4], when the probing subprocess completes
    with exit status [rc], zero or not, and prints nothing but white space,
    the method chosen is animation.  A probe that failed with a non-zero
    status is thus sent as animation, where the claim asks for video. *)
Theorem C1_nonzero_exit_sends_animation name w rc out :
  Str.lower (Path.suffix name) = ".mp4" ->
  (run_ffprobe os name w).1 = ProbeCompleted rc out ->
  has_nonspace out = false ->
  value (select_method os name w) = animation.
Proof.
  intros E Hrun Hblank.
  destruct (select_method_mp4_by_probe name w E) as (_ & Hsilent & _).
  apply (Hsilent rc out Hrun). by rewrite truthy_strip.
Qed.

End Classifier.

Lemma C4_nonzero_exit_answers_false_witness :
  value (has_audio (scripted (ProbeCompleted 1 "") [] (always Sent) true)
           "clip.mp4" 0%nat) = false.
Proof.
  apply (C4_nonzero_exit_answers_false
           (scripted (ProbeCompleted 1 "") [] (always Sent) true)
           "clip.mp4" 0%nat 1%Z ""); reflexivity.
Defined.

Lemma C1_nonzero_exit_sends_animation_witness :
  value (select_method (scripted (ProbeCompleted 1 "") [] (always Sent) true)
           "clip.mp4" 0%nat) = animation.
Proof.
  apply (C1_nonzero_exit_sends_animation
           (scripted (ProbeCompleted 1 "") [] (always Sent) true)
           "clip.mp4" 0%nat 1%Z ""); reflexivity.
Defined.

(** ** The monad *)

Section Monad.

Context {World A B : Type} (m : M World A) (k : A -> M World B) (w : World).

Lemma events_bind :
  events (bind m k w) =
  (events (m w) ++ events (k (value (m w)) (world (m w))))%list.
Proof. reflexivity. Qed.

Lemma value_bind : value (bind m k w) = value (k (value (m w)) (world (m w))).
Proof. reflexivity. Qed.

Lemma world_bind : world (bind m k w) = world (k (value (m w)) (world (m w))).
Proof. reflexivity. Qed.

End Monad.

Lemma attempts_to_app c evs1 evs2 :
  attempts_to c (evs1 ++ evs2)%list =
  (attempts_to c evs1 ++ attempts_to c evs2)%list.
Proof. unfold attempts_to. apply omap_app. Qed.

(** ** The retry loop *)

Section Retry.

Context {World : Type} (os : Oracle World).
Variables (name : string) (m : method_name).

Lemma send_events a req w :
  events (send os a req w) = [EvSend a req (send_call os req w).1].
Proof. unfold send. by destruct (send_call os req w). Qed.

Lemma send_value a req w : value (send os a req w) = (send_call os req w).1.
Proof. unfold send. by destruct (send_call os req w). Qed.

Lemma for_chat_ids_cons a c0 rest pending w :
  for_chat_ids os name m a (c0 :: rest) pending w =
  bind (send os a (request name m c0))
    (fun o => for_chat_ids os name m a rest
       (match o with
        | Sent => pending ∖ {[ c0 ]}
        | RaisedTelegramError | RaisedException => pending
        end)) w.
Proof. reflexivity. Qed.

(** A pass does not touch a recipient that is not in its list. *)
Lemma for_chat_ids_out a c ids : forall pending w,
  c ∉ ids ->
  attempts_to c (events (for_chat_ids os name m a ids pending w)) = [] /\
  (c ∈ value (for_chat_ids os name m a ids pending w) <-> c ∈ pending).
Proof.
  induction ids as [|c0 rest IH]; intros pending w Hc.
  - split; reflexivity.
  - apply not_elem_of_cons in Hc as [Hne Hrest].
    rewrite for_chat_ids_cons, events_bind, value_bind, attempts_to_app.
    rewrite send_events, send_value.
    set (o := (send_call os (request name m c0) w).1).
    set (p' := match o with Sent => pending ∖ {[ c0 ]} | _ => pending end).
    destruct (IH p' (world (send os a (request name m c0) w)) Hrest) as [-> Hiff].
    split.
    + simpl. rewrite decide_False by (simpl; congruence). reflexivity.
    + rewrite Hiff. subst p'. destruct o; set_solver.
Qed.

(** A pass sends once to each recipient of its list, and drops from the
    pending set exactly those whose send went through. *)
Lemma for_chat_ids_in a c ids : forall pending w,
  NoDup ids -> c ∈ ids ->
  exists o,
    attempts_to c (events (for_chat_ids os name m a ids pending w)) = [(a, o)] /\
    (c ∈ value (for_chat_ids os name m a ids pending w) <->
     c ∈ pending /\ o <> Sent).
Proof.
  induction ids as [|c0 rest IH]; intros pending w Hnd Hc.
  - by apply elem_of_nil in Hc.
  - apply NoDup_cons in Hnd as [Hfresh Hnd].
    rewrite for_chat_ids_cons, events_bind, value_bind, attempts_to_app.
    rewrite send_events, send_value.
    set (o := (send_call os (request name m c0) w).1).
    set (p' := match o with Sent => pending ∖ {[ c0 ]} | _ => pending end).
    set (w' := world (send os a (request name m c0) w)).
    destruct (decide (c0 = c)) as [->|Hne].
    + exists o.
      destruct (for_chat_ids_out a c rest p' w' Hfresh) as [-> Hiff].
      split.
      * simpl. rewrite decide_True by reflexivity. reflexivity.
      * rewrite Hiff. subst p'. destruct o; set_solver.
    + apply elem_of_cons in Hc as [Hc|Hc]; [congruence|].
      destruct (IH p' w' Hnd Hc) as (o' & -> & Hiff).
      exists o'. split.
      * simpl. rewrite decide_False by (simpl; congruence). reflexivity.
      * rewrite Hiff. subst p'. destruct o; set_solver.
Qed.

Lemma for_chat_ids_events_send a ids : forall pending w,
  Forall (fun e => exists c o, e = EvSend a (request name m c) o /\ c ∈ ids)
    (events (for_chat_ids os name m a ids pending w)).
Proof.
  induction ids as [|c0 rest IH]; intros pending w.
  - constructor.
  - rewrite for_chat_ids_cons, events_bind, send_events.
    constructor.
    + eexists _, _. split; [reflexivity|]. apply elem_of_cons. by left.
    + eapply Forall_impl; [apply IH|].
      intros e (c & o & -> & Hin). eexists _, _. split; [reflexivity|].
      apply elem_of_cons. by right.
Qed.

Lemma for_attempts_cons a rest pending w :
  pending <> ∅ ->
  for_attempts os name m (a :: rest) pending w =
  bind (for_chat_ids os name m a (elements pending) pending)
    (fun pending' =>
       bind (if decide (pending' = ∅) then ret tt else sleep os 1)
         (fun _ => for_attempts os name m rest pending')) w.
Proof. intros Hne. simpl. by rewrite decide_False. Qed.

Lemma settle_no_attempt c (pending : gset Z) w :
  attempts_to c
    (events ((if decide (pending = ∅) then ret tt else sleep os 1) w)) = [].
Proof. by case_decide. Qed.

(** The loop never sends to a recipient that is not pending. *)
Lemma for_attempts_out c attempts : forall pending w,
  c ∉ pending ->
  attempts_to c (events (for_attempts os name m attempts pending w)) = [].
Proof.
  induction attempts as [|a rest IH]; intros pending w Hc; [reflexivity|].
  destruct (decide (pending = ∅)) as [->|Hne].
  - simpl. by rewrite decide_True.
  - rewrite (for_attempts_cons _ _ _ _ Hne).
    rewrite events_bind, events_bind, !attempts_to_app, settle_no_attempt.
    assert (Hout : c ∉ elements pending) by by rewrite elem_of_elements.
    destruct (for_chat_ids_out a c (elements pending) pending w Hout) as [-> Hiff].
    rewrite IH; [reflexivity|]. by rewrite Hiff.
Qed.

(** The sends to a pending recipient over [n] attempts starting at [a]. *)
Lemma for_attempts_in c n : forall a pending w,
  c ∈ pending ->
  attempts_shape a n
    (attempts_to c (events (for_attempts os name m (seq a n) pending w))).
Proof.
  induction n as [|n IH]; intros a pending w Hc; [reflexivity|].
  assert (Hne : pending <> ∅) by set_solver.
  cbn [seq]. rewrite (for_attempts_cons _ _ _ _ Hne).
  rewrite events_bind, events_bind, !attempts_to_app, settle_no_attempt.
  assert (Hin : c ∈ elements pending) by by rewrite elem_of_elements.
  destruct (for_chat_ids_in a c (elements pending) pending w
              (NoDup_elements pending) Hin) as (o & -> & Hiff).
  set (p' := value (for_chat_ids os name m a (elements pending) pending w)) in *.
  cbn [attempts_shape app]. eexists o, _. split; [reflexivity|].
  destruct (decide (o = Sent)) as [->|Ho].
  - apply for_attempts_out. rewrite Hiff. tauto.
  - apply IH. rewrite Hiff. tauto.
Qed.

Lemma for_attempts_events attempts : forall pending w,
  Forall (fun e => (exists a c o, e = EvSend a (request name m c) o) \/ e = EvSleep 1)
    (events (for_attempts os name m attempts pending w)).
Proof.
  induction attempts as [|a rest IH]; intros pending w; [constructor|].
  destruct (decide (pending = ∅)) as [->|Hne].
  - simpl. rewrite decide_True by done. constructor.
  - rewrite (for_attempts_cons _ _ _ _ Hne), events_bind, events_bind.
    apply Forall_app. split; [|apply Forall_app; split].
    + eapply Forall_impl; [apply for_chat_ids_events_send|].
      intros e (c & o & -> & _). left. eauto.
    + case_decide; [constructor|]. constructor; [by right|constructor].
    + apply IH.
Qed.

End Retry.

(** ** One run of the distribution engine *)

Section SendMedia.

Context {World : Type} (os : Oracle World).

Lemma select_method_events name w :
  events (select_method os name w) =
  if decide (Str.lower (Path.suffix name) = ".mp4")
  then [EvProbe name (run_ffprobe os name w).1]
  else [].
Proof.
  destruct (decide (Str.lower (Path.suffix name) = ".mp4")) as [E|E].
  - rewrite (select_method_mp4 os name w E). cbn [events].
    apply has_audio_events.
  - unfold select_method. repeat case_decide; try reflexivity. contradiction.
Qed.

Lemma send_media_events name w :
  events (send_media os name w) =
  (events (select_method os name w) ++ EvSleep 3 :: events (retries os name w)
   ++ [EvUnlink name (path_unlink os name (world (retries os name w))).1])%list.
Proof.
  unfold send_media, retries, snapshot, settled.
  rewrite !events_bind. f_equal. cbn [sleep events value world app chat_ids_now].
  do 2 f_equal. unfold unlink.
  destruct (path_unlink os name _) as [ok w']. reflexivity.
Qed.

Lemma select_method_no_attempt c name w :
  attempts_to c (events (select_method os name w)) = [].
Proof. rewrite select_method_events. by case_decide. Qed.

Lemma send_media_attempts c name w :
  attempts_to c (events (send_media os name w)) =
  attempts_to c (events (retries os name w)).
Proof.
  rewrite send_media_events, attempts_to_app, select_method_no_attempt.
  cbn [app attempts_to omap list_omap attempt_to].
  change (omap (attempt_to c) ?l) with (attempts_to c l).
  rewrite attempts_to_app. cbn. by rewrite app_nil_r.
Qed.

(** Shape of the sends of one run to one recipient. *)
Lemma send_media_shape c name w :
  (c ∈ snapshot os name w ->
   attempts_shape 1 3 (attempts_to c (events (send_media os name w)))) /\
  (c ∉ snapshot os name w ->
   attempts_to c (events (send_media os name w)) = []).
Proof.
  rewrite send_media_attempts. unfold retries. split; intros Hc.
  - apply for_attempts_in. by apply elem_of_list_to_set.
  - apply for_attempts_out. by rewrite elem_of_list_to_set.
Qed.

End SendMedia.

(** A run ends in the [unlink] of its file; before it come only the probe,
    sleeps and sends, and every send is a request for that file. *)
Lemma send_media_ends_in_unlink {World : Type} (os : Oracle World) name w :
  exists body ok,
    events (send_media os name w) = (body ++ [EvUnlink name ok])%list /\
    Forall (fun e => is_unlink e = false) body /\
    Forall (fun e => forall a req o, e = EvSend a req o -> sr_file req = name) body.
Proof.
  rewrite send_media_events.
  eexists (events (select_method os name w)
           ++ EvSleep 3 :: events (retries os name w))%list, _.
  split; [|split].
  - rewrite <- app_assoc. reflexivity.
  - apply Forall_app. split.
    + rewrite select_method_events. case_decide; repeat constructor.
    + constructor; [reflexivity|].
      eapply Forall_impl; [apply for_attempts_events|].
      intros e [(a & c & o & ->)| ->]; reflexivity.
  - apply Forall_app. split.
    + rewrite select_method_events. case_decide; repeat constructor; done.
    + constructor; [done|].
      eapply Forall_impl; [apply for_attempts_events|].
      intros e [(a & c & o & ->)| ->] a' req o' H; by simplify_eq.
Qed.

(** ** Guarantees of the retry loop *)

Lemma attempts_shape_cases l :
  attempts_shape 1 3 l ->
  l = [(1, Sent)] \/
  (exists o1, o1 <> Sent /\ l = [(1, o1); (2, Sent)]) \/
  (exists o1 o2 o3, o1 <> Sent /\ o2 <> Sent /\ l = [(1, o1); (2, o2); (3, o3)]).
Proof.
  intros (o1 & l1 & -> & H1). destruct (decide (o1 = Sent)) as [->|N1].
  { subst. by left. }
  destruct H1 as (o2 & l2 & -> & H2). destruct (decide (o2 = Sent)) as [->|N2].
  { subst. right. left. by exists o1. }
  destruct H2 as (o3 & l3 & -> & H3). right. right. exists o1, o2, o3.
  assert (l3 = []) as ->; [|done].
  destruct (decide (o3 = Sent)); done.
Qed.

Section Guarantees.

Context {World : Type} (os : Oracle World).

(** C2: in one run of [send_media] a recipient is sent to at most 3 times;
    nothing is sent to it after a send that went through; if the send of
    attempt 2 went through, the recipient has exactly the failed send of
    attempt 1 and that one, and none in attempt 3; and a recipient of the
    snapshot whose sends all fail is sent to exactly 3 times, once in each
    of the attempts 1, 2, 3. *)
Theorem C2_bounded_retries name w c :
  let l := attempts_to c (events (send_media os name w)) in
  List.length l <= 3 /\
  (forall pre a post, l = (pre ++ (a, Sent) :: post)%list -> post = []) /\
  ((2, Sent) ∈ l -> exists o1, o1 <> Sent /\ l = [(1, o1); (2, Sent)]) /\
  (c ∈ snapshot os name w -> Forall (fun p => p.2 <> Sent) l ->
   exists o1 o2 o3, l = [(1, o1); (2, o2); (3, o3)]).
Proof.
  intros l. destruct (send_media_shape os c name w) as [Hin Hout].
  destruct (decide (c ∈ snapshot os name w)) as [Hc|Hc].
  - specialize (Hin Hc). fold l in Hin.
    destruct (attempts_shape_cases l Hin)
      as [E|[(o1 & N1 & E)|(o1 & o2 & o3 & N1 & N2 & E)]]; rewrite E.
    + split; [|split; [|split]].
      * simpl. lia.
      * intros [|? [|? ?]] a post H; simpl in H; by simplify_eq.
      * intros H. set_solver.
      * intros _ H. apply Forall_cons in H as [H _]. done.
    + split; [|split; [|split]].
      * simpl. lia.
      * intros [|? [|? [|? ?]]] a post H; simpl in H; by simplify_eq.
      * intros _. by exists o1.
      * intros _ H. apply Forall_cons in H as [_ H].
        apply Forall_cons in H as [H _]. done.
    + split; [|split; [|split]].
      * simpl. lia.
      * intros [|? [|? [|? [|? ?]]]] a post H; simpl in H; by simplify_eq.
      * intros H. apply elem_of_cons in H as [H|H]; [by simplify_eq|].
        apply elem_of_cons in H as [H|H]; [by simplify_eq|].
        apply elem_of_cons in H as [H|H]; [by simplify_eq|].
        by apply elem_of_nil in H.
      * intros _ _. by exists o1, o2, o3.
  - specialize (Hout Hc). fold l in Hout. rewrite Hout. split; [|split; [|split]].
    + simpl. lia.
    + intros [|? ?] a post H; simpl in H; by simplify_eq.
    + intros H. by apply elem_of_nil in H.
    + intros H. done.
Qed.

(** C10: whatever the recipient list holds, duplicates included, no two
    sends of one run to the same recipient belong to the same attempt, and
    at most one send to it goes through. *)
Theorem C10_once_per_pass name w c :
  let l := attempts_to c (events (send_media os name w)) in
  NoDup (l.*1) /\ List.length (filter (fun p => p.2 = Sent) l) <= 1.
Proof.
  intros l. destruct (send_media_shape os c name w) as [Hin Hout].
  destruct (decide (c ∈ snapshot os name w)) as [Hc|Hc].
  - specialize (Hin Hc). fold l in Hin.
    destruct (attempts_shape_cases l Hin)
      as [E|[(o1 & N1 & E)|(o1 & o2 & o3 & N1 & N2 & E)]]; rewrite E; split.
    + cbn. repeat constructor; set_solver.
    + rewrite filter_cons_True by done. cbn. lia.
    + cbn. repeat constructor; set_solver.
    + rewrite filter_cons_False by done. rewrite filter_cons_True by done.
      cbn. lia.
    + cbn. repeat constructor; set_solver.
    + rewrite filter_cons_False by done. rewrite filter_cons_False by done.
      rewrite filter_cons. case_decide; cbn; lia.
  - specialize (Hout Hc). fold l in Hout. rewrite Hout. split.
    + constructor.
    + cbn. lia.
Qed.

(** C3: whatever the sends did, the trace of a run of [send_media] ends in
    one [unlink] of the staged file, and holds no other [unlink]. *)
Theorem C3_unlink_once_at_end name w :
  exists body ok,
    events (send_media os name w) = (body ++ [EvUnlink name ok])%list /\
    Forall (fun e => is_unlink e = false) body.
Proof.
  destruct (send_media_ends_in_unlink os name w) as (body & ok & E & Hbody & _).
  by exists body, ok.
Qed.

(** C5, what the code does: for a file named [clip.mp4] the probe reads the
    file first, and the 3 second sleep comes after it. *)
Theorem C5_probe_before_settle_delay w :
  exists rest,
    events (send_media os "clip.mp4" w) =
    EvProbe "clip.mp4" (run_ffprobe os "clip.mp4" w).1 :: EvSleep 3 :: rest.
Proof.
  rewrite send_media_events, select_method_events.
  rewrite decide_True by reflexivity. eexists. reflexivity.
Qed.

End Guarantees.

Lemma C2_bounded_retries_witness :
  let os := scripted ProbeRaised [10; 20; 10]%Z (from_send 2 20%Z) true in
  (exists o1, o1 <> Sent /\
     attempts_to 20%Z (events (send_media os "a.png" 0%nat)) =
     [(1, o1); (2, Sent)]) /\
  (exists o1 o2 o3,
     attempts_to 10%Z (events (send_media os "a.png" 0%nat)) =
     [(1, o1); (2, o2); (3, o3)]).
Proof.
  intros os. split.
  - destruct (C2_bounded_retries os "a.png" 0%nat 20%Z) as (_ & _ & H & _).
    apply H. vm_compute. apply list_elem_of_In. simpl. tauto.
  - destruct (C2_bounded_retries os "a.png" 0%nat 10%Z) as (_ & _ & _ & H).
    apply H.
    + vm_compute. apply list_elem_of_In. simpl. tauto.
    + vm_compute. repeat constructor; discriminate.
Defined.

(** ** The monitor *)

Section Monitor.

Context {World : Type} (os : Oracle World).

Lemma for_items_app pre post w :
  events (for_items os (pre ++ post)%list w) =
  (events (for_items os pre w)
   ++ events (for_items os post (world (for_items os pre w))))%list /\
  world (for_items os (pre ++ post)%list w) =
  world (for_items os post (world (for_items os pre w))).
Proof.
  revert w. induction pre as [|item pre IH]; intros w; [done|].
  cbn [app for_items]. rewrite !events_bind, !world_bind.
  destruct (IH (world (monitor_item os item w))) as [-> ->].
  by rewrite app_assoc.
Qed.

Lemma monitor_item_sends item w a req o :
  EvSend a req o ∈ events (monitor_item os item w) ->
  item = (sr_file req, IsFile) /\
  Str.lower (Path.suffix (sr_file req)) ∈ allowed_extensions.
Proof.
  destruct item as [name [| |]]; unfold monitor_item; cbn [fst snd].
  - case_decide as Hext.
    + destruct (send_media_ends_in_unlink os name w) as (body & ok & -> & _ & Hs).
      intros Hin. apply elem_of_app in Hin as [Hin|Hin].
      * rewrite Forall_forall in Hs. rewrite (Hs _ Hin a req o eq_refl). done.
      * apply list_elem_of_singleton in Hin. discriminate.
    + rewrite events_bind. unfold unlink.
      destruct (path_unlink os name w) as [ok w']. cbn.
      intros Hin. apply list_elem_of_singleton in Hin. discriminate.
  - rewrite events_bind. unfold rmtree.
    destruct (shutil_rmtree os name w) as [ok w']. cbn.
    intros Hin. apply list_elem_of_singleton in Hin. discriminate.
  - intros Hin. by apply elem_of_nil in Hin.
Qed.

Lemma for_items_sends items : forall w a req o,
  EvSend a req o ∈ events (for_items os items w) ->
  (sr_file req, IsFile) ∈ items /\
  Str.lower (Path.suffix (sr_file req)) ∈ allowed_extensions.
Proof.
  induction items as [|item rest IH]; intros w a req o Hin.
  - by apply elem_of_nil in Hin.
  - cbn [for_items] in Hin. rewrite events_bind in Hin.
    apply elem_of_app in Hin as [Hin|Hin].
    + destruct (monitor_item_sends _ _ _ _ _ Hin) as [-> Hext].
      split; [|done]. apply elem_of_cons. by left.
    + destruct (IH _ _ _ _ Hin) as [Hmem Hext].
      split; [|done]. apply elem_of_cons. by right.
Qed.

(** C7: a monitor pass handles the entries of its listing one after the
    other, each from the world the previous one left.  A file with an
    allowed extension is given to [send_media], whose whole run, up to and
    including the [unlink] that ends it, comes before anything is done for
    the next entry; a file with another extension gets one [unlink] and
    nothing else; a directory gets one [rmtree] and nothing else.  Every
    send of the pass is for a file entry with an allowed extension. *)
Theorem C7_monitor_pass items w :
  (forall pre item post, items = (pre ++ item :: post)%list ->
     let w1 := world (for_items os pre w) in
     let r := monitor_item os item w1 in
     events (monitor_pass os items w) =
     (events (for_items os pre w) ++ events r
      ++ events (for_items os post (world r)) ++ [EvSleep 5])%list /\
     match item.2 with
     | IsFile =>
         if decide (Str.lower (Path.suffix item.1) ∈ allowed_extensions)
         then r = send_media os item.1 w1 /\
              exists body ok, events r = (body ++ [EvUnlink item.1 ok])%list
         else events r = [EvUnlink item.1 (path_unlink os item.1 w1).1]
     | IsDir => events r = [EvRmtree item.1 (shutil_rmtree os item.1 w1).1]
     | Neither => events r = []
     end) /\
  (forall a req o, EvSend a req o ∈ events (monitor_pass os items w) ->
     (sr_file req, IsFile) ∈ items /\
     Str.lower (Path.suffix (sr_file req)) ∈ allowed_extensions).
Proof.
  split.
  - intros pre item post -> w1 r. split.
    + unfold monitor_pass. rewrite events_bind.
      destruct (for_items_app pre (item :: post) w) as [-> _].
      cbn [for_items]. rewrite events_bind. fold w1. fold r.
      cbn [sleep events]. by rewrite <- !app_assoc.
    + subst r. destruct item as [name [| |]]; unfold monitor_item; cbn [fst snd].
      * case_decide.
        -- split; [done|].
           destruct (send_media_ends_in_unlink os name w1) as (body & ok & E & _).
           by exists body, ok.
        -- rewrite events_bind. unfold unlink.
           destruct (path_unlink os name w1) as [ok w']. reflexivity.
      * rewrite events_bind. unfold rmtree.
        destruct (shutil_rmtree os name w1) as [ok w']. reflexivity.
      * reflexivity.
  - intros a req o Hin. unfold monitor_pass in Hin. rewrite events_bind in Hin.
    apply elem_of_app in Hin as [Hin|Hin].
    + by apply for_items_sends in Hin.
    + cbn in Hin. apply list_elem_of_singleton in Hin. discriminate.
Qed.

End Monitor.

Lemma C7_monitor_pass_witness :
  let os := scripted ProbeRaised [10]%Z (always Sent) true in
  let items := [("a.exe", IsFile); ("junk", IsDir); ("p.png", IsFile)] in
  let req := request "p.png" photo 10%Z in
  events (monitor_item os ("a.exe", IsFile) 0%nat) = [EvUnlink "a.exe" true] /\
  ((sr_file req, IsFile) ∈ items /\
   Str.lower (Path.suffix (sr_file req)) ∈ allowed_extensions).
Proof.
  intros os items req. destruct (C7_monitor_pass os items 0%nat) as [H1 H2]. split.
  - destruct (H1 [] ("a.exe", IsFile) [("junk", IsDir); ("p.png", IsFile)] eq_refl)
      as [_ H].
    vm_compute in H. vm_compute. exact H.
  - apply (H2 1%nat req Sent).
    vm_compute. apply list_elem_of_In. simpl. tauto.
Defined.

(** ** The recipient list *)

Lemma list_remove_app_fresh x l : x ∉ l -> list_remove x (l ++ [x])%list = l.
Proof.
  induction l as [|y l IH]; intros Hx; simpl.
  - by rewrite decide_True.
  - apply not_elem_of_cons in Hx as [Hne Hx].
    rewrite decide_False by congruence. by rewrite IH.
Qed.

Lemma list_remove_subseteq x l : list_remove x l ⊆ l.
Proof.
  induction l as [|y l IH]; simpl; [done|].
  case_decide; set_solver.
Qed.

Lemma list_remove_NoDup x l : NoDup l -> NoDup (list_remove x l).
Proof.
  induction 1 as [|y l Hy Hl IH]; simpl; [constructor|].
  case_decide; [done|]. constructor; [|done].
  intros Hin. apply Hy. by apply (list_remove_subseteq x l).
Qed.

Lemma update_chat_ids_file_chat_ids w st :
  Registry.chat_ids (Registry.update_chat_ids_file w st) = Registry.chat_ids st.
Proof. by destruct w. Qed.

Lemma add_command_fresh owner x w st :
  x ∉ Registry.chat_ids st ->
  (Registry.add_command owner owner (Registry.FirstArg (Some x)) w st).1 =
  Registry.update_chat_ids_file w
    (Registry.State (Registry.chat_ids st ++ [x]) (Registry.chat_ids_file st)).
Proof.
  intros Hx. unfold Registry.add_command.
  rewrite (decide_False (P := owner <> owner)) by (intros H; by apply H).
  by rewrite (decide_False (P := x ∈ Registry.chat_ids st)).
Qed.

Lemma remove_command_present owner x w st :
  x ∈ Registry.chat_ids st ->
  (Registry.remove_command owner owner (Registry.FirstArg (Some x)) w st).1 =
  Registry.update_chat_ids_file w
    (Registry.State (list_remove x (Registry.chat_ids st)) (Registry.chat_ids_file st)).
Proof.
  intros Hx. unfold Registry.remove_command.
  rewrite (decide_False (P := owner <> owner)) by (intros H; by apply H).
  by rewrite (decide_True (P := x ∈ Registry.chat_ids st)).
Qed.

(** C8, as the code has it: on a registry whose file holds the list in
    memory, when [x] is not in the list, the owner's [/add x] followed by
    [/remove x], both writes going through, gives the registry back as it
    was, list and file. *)
Theorem C8_add_then_remove_fresh owner x st :
  Registry.chat_ids_file st = FileList (Registry.chat_ids st) ->
  x ∉ Registry.chat_ids st ->
  let st1 :=
    (Registry.add_command owner owner (Registry.FirstArg (Some x)) Registry.WriteOk st).1 in
  (Registry.remove_command owner owner (Registry.FirstArg (Some x)) Registry.WriteOk st1).1
  = st.
Proof.
  intros Hfile Hx st1. subst st1.
  rewrite add_command_fresh by done.
  rewrite remove_command_present.
  - cbn. rewrite list_remove_app_fresh by done.
    destruct st as [l f]. cbn in *. by subst.
  - cbn. apply elem_of_app. right. by apply list_elem_of_singleton.
Qed.

Lemma C8_add_then_remove_fresh_witness :
  let st := Registry.State [3; 4]%Z (FileList [3; 4]%Z) in
  (Registry.remove_command 1 1 (Registry.FirstArg (Some 5%Z)) Registry.WriteOk
     (Registry.add_command 1 1 (Registry.FirstArg (Some 5%Z)) Registry.WriteOk st).1).1
  = st.
Proof.
  intros st. apply (C8_add_then_remove_fresh 1%Z 5%Z st).
  - reflexivity.
  - vm_compute. intros H. apply list_elem_of_In in H. simpl in H.
    destruct H as [H|[H|H]]; [discriminate|discriminate|exact H].
Defined.

(** C8 as stated fails: with 5 already in the list, [/add 5] changes
    nothing and [/remove 5] takes it out; the file then holds the empty
    list, which is not the list [5] as a set. *)
Lemma C8_add_remove_present_counterexample :
  let st := Registry.State [5]%Z (FileList [5]%Z) in
  let st1 :=
    (Registry.add_command 1 1 (Registry.FirstArg (Some 5%Z)) Registry.WriteOk st).1 in
  let st2 :=
    (Registry.remove_command 1 1 (Registry.FirstArg (Some 5%Z)) Registry.WriteOk st1).1 in
  Registry.chat_ids_file st = FileList [5]%Z /\
  Registry.chat_ids_file st2 = FileList [] /\
  ~ (forall i : Z, i ∈ ([] : list Z) <-> i ∈ [5]%Z).
Proof.
  split; [reflexivity|]. split; [reflexivity|].
  intros H. apply (elem_of_nil 5%Z). apply H. apply elem_of_cons. by left.
Qed.

(** C9, as the code has it: on a list without duplicates, [/add] and
    [/remove] leave a list without duplicates, whoever sends them and
    whatever the argument; an uploaded JSON file leaves one as well provided
    that, when it holds a list, that list itself has no duplicates (the
    handler stores the uploaded list as it is). *)
Theorem C9_uniqueness_preserved owner chat st :
  NoDup (Registry.chat_ids st) ->
  (forall args w, NoDup (Registry.chat_ids (Registry.add_command owner chat args w st).1)) /\
  (forall args w, NoDup (Registry.chat_ids (Registry.remove_command owner chat args w st).1)) /\
  (forall file_name p w,
     (forall data, p = Registry.PayloadList data -> NoDup data) ->
     NoDup (Registry.chat_ids
              (Registry.json_document_handler owner chat file_name p w st).1)).
Proof.
  intros Hnd. split; [|split].
  - intros args w. unfold Registry.add_command.
    case_decide; [done|]. destruct args as [|[new_id|]]; [done| |done].
    case_decide as Hin; [done|]. cbn [fst].
    rewrite update_chat_ids_file_chat_ids. cbn.
    apply NoDup_app. split; [done|]. split; [|apply NoDup_singleton].
    intros i Hi Hi'. apply list_elem_of_singleton in Hi'. by subst.
  - intros args w. unfold Registry.remove_command.
    case_decide; [done|]. destruct args as [|[rem_id|]]; [done| |done].
    case_decide as Hin; [|done]. cbn [fst].
    rewrite update_chat_ids_file_chat_ids. cbn.
    by apply list_remove_NoDup.
  - intros file_name p w Hp. unfold Registry.json_document_handler.
    case_decide; [done|]. destruct (Str.endswith file_name ".json"); [|done].
    destruct p as [| |data]; [done|done|]. cbn [fst].
    rewrite update_chat_ids_file_chat_ids. cbn. by apply Hp.
Qed.

Lemma C9_uniqueness_preserved_witness :
  let st := Registry.State [3; 4]%Z (FileList [3; 4]%Z) in
  NoDup (Registry.chat_ids
           (Registry.json_document_handler 1 1 "ids.json"
              (Registry.PayloadList [8; 9]%Z) Registry.WriteOk st).1).
Proof.
  intros st.
  assert (Hst : NoDup (Registry.chat_ids st)).
  { apply (bool_decide_unpack _). vm_compute. exact I. }
  destruct (C9_uniqueness_preserved 1%Z 1%Z st Hst) as (_ & _ & H).
  apply H. intros data E. injection E as <-.
  apply (bool_decide_unpack _). vm_compute. exact I.
Defined.

(** C9 as stated fails for the upload: from the empty list, which has no
    duplicates, the owner's upload of the JSON list [7, 7] leaves a list
    that holds 7 twice. *)
Lemma C9_upload_duplicates_counterexample :
  let st := Registry.State [] (FileList []) in
  let st' :=
    (Registry.json_document_handler 1 1 "ids.json"
       (Registry.PayloadList [7; 7]%Z) Registry.WriteOk st).1 in
  NoDup (Registry.chat_ids st) /\
  Registry.chat_ids st' = [7; 7]%Z /\
  ~ NoDup (Registry.chat_ids st').
Proof.
  split; [constructor|]. split; [reflexivity|].
  cbn. intros H. apply NoDup_cons in H as [H _]. apply H.
  apply elem_of_cons. by left.
Qed.

(** ** The ingestion side *)

(** C6, as the code has it: a media message whose chat identifier is in
    the blocklist as just reloaded, or whose sender identifier is there and
    is not 0, leads to no download request. *)
Theorem C6_blocked_not_downloaded ev msg file :
  Login.event_message ev = Some msg ->
  Login.media msg = true ->
  (Login.chat_id ev ∈ (Login.load_blocked_chat_ids file).1 \/
   exists s, Login.sender_id msg = Some s /\ s <> 0%Z /\
             s ∈ (Login.load_blocked_chat_ids file).1) ->
  (Login.new_media_handler ev file).1 = [].
Proof.
  intros Hmsg Hmedia Hblocked. unfold Login.new_media_handler.
  rewrite Hmsg, Hmedia.
  destruct (Login.load_blocked_chat_ids file) as [blocked file'].
  cbn [fst] in Hblocked.
  destruct Hblocked as [Hc|(s & Hs & Hnz & Hin)].
  - by rewrite bool_decide_eq_true_2.
  - rewrite Hs. unfold Login.truthy_id. rewrite decide_False by done.
    rewrite (bool_decide_eq_true_2 (s ∈ blocked)) by done.
    by rewrite orb_true_r.
Qed.

Lemma C6_blocked_not_downloaded_witness :
  (Login.new_media_handler
     (Login.NewMessage (Some (Login.Message true (Some 42%Z) 100%Z None)) 7%Z)
     (FileList [42]%Z)).1 = [].
Proof.
  apply (C6_blocked_not_downloaded _ (Login.Message true (Some 42%Z) 100%Z None)).
  - reflexivity.
  - reflexivity.
  - right. exists 42%Z. split; [reflexivity|]. split; [discriminate|].
    apply elem_of_cons. by left.
Defined.

(** C6 as stated fails: the sender identifier is 0 and 0 is in the
    blocklist, and the handler still asks for the download. *)
Lemma C6_zero_sender_counterexample :
  let msg := Login.Message true (Some 0%Z) 1%Z None in
  let ev := Login.NewMessage (Some msg) 5%Z in
  let file := FileList [0]%Z in
  Login.sender_id msg = Some 0%Z /\
  0%Z ∈ (Login.load_blocked_chat_ids file).1 /\
  (Login.new_media_handler ev file).1 = ["downloads/5-1"].
Proof.
  split; [reflexivity|]. split; [|reflexivity].
  apply elem_of_cons. by left.
Qed.

(** * Further properties of the code *)

(** ** The classifier, over all extensions *)

(** Deciding memberships and equalities between string literals. *)
Ltac by_literals :=
  first [ reflexivity
        | apply (bool_decide_eq_true_1 _); reflexivity
        | apply (bool_decide_eq_false_1 _); reflexivity ].

Ltac decide_literals :=
  repeat first [ rewrite decide_False by by_literals
               | rewrite decide_True by by_literals ].

Ltac literal_facts :=
  first [ discriminate
        | by left
        | by right
        | by_literals
        | exfalso;
          match goal with
          | H : _ \/ _ |- _ => destruct H; discriminate
          | H : ¬ _ |- _ => apply H; by_literals
          | H : _ ∉ _ |- _ => apply H; by_literals
          | H : _ |- _ => revert H; by_literals
          end ].

Section ClassifierTable.

Context {World : Type} (os : Oracle World).

Lemma select_method_table name w :
  let ext := Str.lower (Path.suffix name) in
  let m := value (select_method os name w) in
  (m = photo <-> ext ∈ photo_ext) /\
  (m = voice <-> ext ∈ voice_ext) /\
  (m = audio <-> ext ∈ music_ext) /\
  (m = sticker <-> ext ∈ sticker_ext) /\
  (m = video \/ m = animation <-> ext ∈ video_ext ∪ animation_ext) /\
  (m = document <-> ext ∉ allowed_extensions).
Proof.
  intros ext m. subst m. unfold select_method. fold ext. clearbody ext.
  destruct (decide (ext ∈ allowed_extensions)) as [Ha|Ha].
  - pose proof Ha as Hlit.
    unfold allowed_extensions, photo_ext, video_ext, animation_ext, sticker_ext,
      voice_ext, music_ext in Hlit.
    rewrite !elem_of_union, !elem_of_singleton in Hlit.
    repeat match type of Hlit with _ \/ _ => destruct Hlit as [Hlit|Hlit] end;
      subst ext; decide_literals;
      try (rewrite value_bind; destruct (value (has_audio os name w)));
      cbn [value ret]; repeat split; intros H; literal_facts.
  - pose proof Ha as Hnot.
    unfold allowed_extensions in Hnot. rewrite !not_elem_of_union in Hnot.
    destruct Hnot as (((((Hp & Hv) & Han) & Hs) & Hvo) & Hm).
    rewrite !decide_False by done. cbn [value ret].
    rewrite elem_of_union.
    repeat split; intros H; try discriminate H; try contradiction; try done;
      destruct H as [H|H]; first [discriminate H | contradiction].
Qed.

(** The [if]/[elif] chain sorts by extension set: the method is [photo],
    [voice], [audio] or [sticker] exactly for the extensions of the set of
    that name, [video] or [animation] exactly for those of the two video and
    animation sets, and [document] exactly for the extensions that are not
    allowed. *)
Theorem select_method_by_extension_set name w :
  let ext := Str.lower (Path.suffix name) in
  let m := value (select_method os name w) in
  (m = photo <-> ext ∈ photo_ext) /\
  (m = voice <-> ext ∈ voice_ext) /\
  (m = audio <-> ext ∈ music_ext) /\
  (m = sticker <-> ext ∈ sticker_ext) /\
  (m = video \/ m = animation <-> ext ∈ video_ext ∪ animation_ext) /\
  (m = document <-> ext ∉ allowed_extensions).
Proof. apply select_method_table. Qed.

End ClassifierTable.

(** ** More on one run of [send_media] *)

Section Run.

Context {World : Type} (os : Oracle World).

Lemma for_chat_ids_subseteq name m a ids : forall pending w,
  value (for_chat_ids os name m a ids pending w) ⊆ pending.
Proof.
  induction ids as [|c0 rest IH]; intros pending w; [done|].
  rewrite for_chat_ids_cons, value_bind. etrans; [apply IH|].
  destruct (value (send os a (request name m c0) w)); set_solver.
Qed.

Lemma loop_event_weaken name m attempts attempts' (pending pending' : gset Z) e :
  attempts ⊆ attempts' -> pending ⊆ pending' ->
  loop_event name m attempts pending e -> loop_event name m attempts' pending' e.
Proof.
  intros Ha Hp. destruct e; cbn; try done.
  intros (? & ? & ?). split; [by apply Ha|]. split; [by apply Hp|done].
Qed.

Lemma for_attempts_loop_events name m attempts : forall pending w,
  Forall (loop_event name m attempts pending)
    (events (for_attempts os name m attempts pending w)).
Proof.
  induction attempts as [|a rest IH]; intros pending w; [constructor|].
  destruct (decide (pending = ∅)) as [->|Hne].
  - simpl. rewrite decide_True by done. constructor.
  - rewrite (for_attempts_cons _ _ _ _ _ _ _ Hne), events_bind, events_bind.
    apply Forall_app. split; [|apply Forall_app; split].
    + eapply Forall_impl; [apply for_chat_ids_events_send|].
      intros e (c & o & -> & Hc). cbn. split; [apply elem_of_cons; by left|].
      split; [|done]. by apply elem_of_elements.
    + case_decide; [constructor|]. constructor; [done|constructor].
    + eapply Forall_impl; [apply IH|]. intros e.
      apply loop_event_weaken.
      * intros x Hx. apply elem_of_cons. by right.
      * apply for_chat_ids_subseteq.
Qed.

(** In a run of [send_media] the probe is run only for a [.mp4] suffix, once
    and before anything else; then comes the sleep of 3 seconds; every send
    and the [unlink] come after that sleep. *)
Theorem send_media_settles_before_sending name w :
  exists post,
    events (send_media os name w) =
    ((if decide (Str.lower (Path.suffix name) = ".mp4")
      then [EvProbe name (run_ffprobe os name w).1] else [])
     ++ EvSleep 3 :: post)%list /\
    Forall (fun e => is_probe e = false) post.
Proof.
  rewrite send_media_events, select_method_events. eexists. split; [reflexivity|].
  apply Forall_app. split; [|by repeat constructor].
  eapply Forall_impl; [apply for_attempts_events|].
  intros e [(a & c & o & ->)| ->]; reflexivity.
Qed.

(** Every send of a run has an attempt number from 1 to 3, goes to an
    identifier of the list read after the sleep, and carries the request
    built from the file name, the method selected at the start and that
    identifier: the same method, file name and caption for every recipient
    and every attempt. *)
Theorem send_media_requests name w :
  Forall (fun e =>
            match e with
            | EvSend a req o =>
                1 <= a <= 3 /\ sr_chat_id req ∈ snapshot os name w /\
                req = request name (value (select_method os name w)) (sr_chat_id req)
            | _ => True
            end)
    (events (send_media os name w)).
Proof.
  rewrite send_media_events. apply Forall_app. split; [|apply Forall_cons; split].
  - rewrite select_method_events. case_decide; by repeat constructor.
  - done.
  - apply Forall_app. split; [|by repeat constructor].
    eapply Forall_impl; [apply for_attempts_loop_events|].
    intros [| |a req o| |]; cbn; try done.
    intros (Ha & Hc & Hreq). split; [|split; [|done]].
    + apply (elem_of_seq 1 3 a) in Ha. lia.
    + by apply elem_of_list_to_set in Hc.
Qed.

(** Every identifier of the list read after the sleep is sent to in attempt
    1, and an identifier that is not in that list is never sent to. *)
Theorem send_media_reaches_every_recipient name w c :
  (c ∈ snapshot os name w ->
   exists o rest,
     attempts_to c (events (send_media os name w)) = (1, o) :: rest) /\
  (c ∉ snapshot os name w ->
   attempts_to c (events (send_media os name w)) = []).
Proof.
  destruct (send_media_shape os c name w) as [Hin Hout]. split; [|done].
  intros Hc. destruct (Hin Hc) as (o & rest & -> & _). by exists o, rest.
Qed.

Lemma for_attempts_nobody name m attempts w :
  for_attempts os name m attempts ∅ w = ret ∅ w.
Proof. destruct attempts; [done|]. simpl. by rewrite decide_True. Qed.

Lemma for_chat_ids_all_sent name m a ids : forall pending w,
  (forall req w', (send_call os req w').1 = Sent) ->
  events (for_chat_ids os name m a ids pending w) =
  map (fun c => EvSend a (request name m c) Sent) ids /\
  value (for_chat_ids os name m a ids pending w) = pending ∖ list_to_set ids.
Proof.
  intros pending w Hsent. revert pending w.
  induction ids as [|c0 rest IH]; intros pending w.
  - split; [done|]. cbn. set_solver.
  - rewrite for_chat_ids_cons, events_bind, value_bind, send_events, send_value.
    rewrite Hsent.
    destruct (IH (pending ∖ {[c0]}) (world (send os a (request name m c0) w)))
      as [-> ->].
    split; [done|]. cbn. set_solver.
Qed.

(** When every send goes through, a run is: the probe if the suffix is
    [.mp4], the sleep of 3 seconds, one send of attempt 1 to each distinct
    identifier of the list, and the [unlink]; there is no second attempt and
    no sleep of 1 second. *)
Theorem send_media_all_sent name w :
  (forall req w', (send_call os req w').1 = Sent) ->
  events (send_media os name w) =
  (events (select_method os name w)
   ++ EvSleep 3
   :: map (fun c => EvSend 1 (request name (value (select_method os name w)) c) Sent)
        (elements (list_to_set (snapshot os name w) : gset Z))
   ++ [EvUnlink name (path_unlink os name (world (retries os name w))).1])%list.
Proof.
  intros Hsent. rewrite send_media_events. do 3 f_equal.
  unfold retries. set (m := value (select_method os name w)).
  set (pending := list_to_set (snapshot os name w) : gset Z).
  destruct (decide (pending = ∅)) as [E|Hne].
  - rewrite E, for_attempts_nobody. by rewrite elements_empty.
  - cbn [seq]. rewrite (for_attempts_cons _ _ _ _ _ _ _ Hne), events_bind, events_bind.
    destruct (for_chat_ids_all_sent name m 1 (elements pending) pending
                (settled os name w) Hsent) as [-> ->].
    rewrite list_to_set_elements_L.
    replace (pending ∖ pending) with (∅ : gset Z) by set_solver.
    rewrite decide_True by done. rewrite for_attempts_nobody. cbn.
    by rewrite app_nil_r.
Qed.

(** With an empty recipient list a run sends nothing: after the probe, if
    any, it sleeps 3 seconds and unlinks the file. *)
Theorem send_media_no_recipient name w :
  snapshot os name w = [] ->
  events (send_media os name w) =
  (events (select_method os name w)
   ++ [EvSleep 3; EvUnlink name (path_unlink os name (settled os name w)).1])%list.
Proof.
  intros E. rewrite send_media_events. unfold retries. rewrite E.
  cbn [list_to_set foldr]. by rewrite for_attempts_nobody.
Qed.

Lemma slept_app evs1 evs2 : slept (evs1 ++ evs2) = slept evs1 + slept evs2.
Proof.
  induction evs1 as [|[| | | |] evs1 IH]; cbn; rewrite ?IH; lia.
Qed.

Lemma for_chat_ids_slept name m a ids : forall pending w,
  slept (events (for_chat_ids os name m a ids pending w)) = 0.
Proof.
  induction ids as [|c0 rest IH]; intros pending w; [done|].
  rewrite for_chat_ids_cons, events_bind, send_events, slept_app. cbn. apply IH.
Qed.

Lemma for_attempts_slept name m attempts : forall pending w,
  slept (events (for_attempts os name m attempts pending w)) <= List.length attempts.
Proof.
  induction attempts as [|a rest IH]; intros pending w; [done|].
  destruct (decide (pending = ∅)) as [->|Hne].
  - rewrite for_attempts_nobody. cbn. lia.
  - rewrite (for_attempts_cons _ _ _ _ _ _ _ Hne), events_bind, events_bind.
    rewrite !slept_app, for_chat_ids_slept.
    match goal with
    | |- context [for_attempts os name m rest ?p ?w'] =>
        specialize (IH p w')
    end.
    case_decide; cbn in *; lia.
Qed.

(** A run of [send_media] asks for at least 3 and at most 6 seconds of
    sleep: the 3 of the start and at most 1 after each of the 3 attempts. *)
Theorem send_media_sleeps_3_to_6 name w :
  3 <= slept (events (send_media os name w)) <= 6.
Proof.
  rewrite send_media_events, slept_app, select_method_events. cbn [slept].
  rewrite slept_app. cbn [slept].
  assert (H : slept (events (retries os name w)) <= 3)
    by apply (for_attempts_slept _ _ (seq 1 3)).
  case_decide; cbn [slept]; lia.
Qed.

End Run.

Lemma send_media_all_sent_witness :
  let os := scripted ProbeRaised [10; 20; 10]%Z (always Sent) true in
  events (send_media os "p.png" 0%nat) =
  (events (select_method os "p.png" 0%nat)
   ++ EvSleep 3
   :: map (fun c => EvSend 1 (request "p.png" (value (select_method os "p.png" 0%nat)) c) Sent)
        (elements (list_to_set (snapshot os "p.png" 0%nat) : gset Z))
   ++ [EvUnlink "p.png"
         (path_unlink os "p.png" (world (retries os "p.png" 0%nat))).1])%list.
Proof.
  intros os. apply (send_media_all_sent os "p.png" 0%nat).
  intros req w'. reflexivity.
Defined.

Lemma send_media_no_recipient_witness :
  let os := scripted (ProbeCompleted 0 "") [] (always Sent) false in
  events (send_media os "clip.mp4" 0%nat) =
  (events (select_method os "clip.mp4" 0%nat)
   ++ [EvSleep 3;
       EvUnlink "clip.mp4" (path_unlink os "clip.mp4" (settled os "clip.mp4" 0%nat)).1])%list.
Proof.
  intros os. apply (send_media_no_recipient os "clip.mp4" 0%nat). reflexivity.
Defined.

(** ** Escaping and path components *)

Lemma append_cons c s t : String c s ++ t = String c (s ++ t).
Proof. reflexivity. Qed.

Lemma list_ascii_of_string_app s1 s2 :
  list_ascii_of_string (s1 ++ s2) =
  (list_ascii_of_string s1 ++ list_ascii_of_string s2)%list.
Proof.
  induction s1 as [|c s1 IH]; [done|]. rewrite append_cons. simpl. by rewrite IH.
Qed.

Lemma string_app_nil_r s : s ++ "" = s.
Proof. induction s as [|c s IH]; [done|]. by rewrite append_cons, IH. Qed.

Lemma escape_char_no_markup c :
  Forall (fun d => is_markup d = false) (list_ascii_of_string (Str.escape_char c)).
Proof.
  unfold Str.escape_char.
  destruct (Ascii.eqb c "&") eqn:E1; [by repeat constructor|].
  destruct (Ascii.eqb c "<") eqn:E2; [by repeat constructor|].
  destruct (Ascii.eqb c ">") eqn:E3; [by repeat constructor|].
  destruct (Ascii.eqb c "034") eqn:E4; [by repeat constructor|].
  destruct (Ascii.eqb c "039") eqn:E5; [by repeat constructor|].
  cbn. constructor; [|constructor]. unfold is_markup.
  by rewrite E2, E3, E4, E5.
Qed.

Lemma escape_no_markup s :
  Forall (fun d => is_markup d = false) (list_ascii_of_string (Str.escape s)).
Proof.
  induction s as [|c s IH]; simpl; [constructor|].
  rewrite list_ascii_of_string_app. apply Forall_app. split; [|done].
  apply escape_char_no_markup.
Qed.

(** The caption is left out for the sticker method only.  For every other
    method it is a [<code>] element whose content holds none of the
    characters [<], [>], double quote and apostrophe, whatever the file
    name: the name cannot close the element or open one of its own. *)
Theorem caption_markup_safe m name :
  match caption_of m name with
  | None => m = sticker
  | Some caption =>
      m <> sticker /\
      exists body,
        caption = "<code>" ++ body ++ "</code>" /\
        Forall (fun d => is_markup d = false) (list_ascii_of_string body)
  end.
Proof.
  unfold caption_of. case_decide; [done|]. split; [done|].
  exists (Str.escape name). split; [done|]. apply escape_no_markup.
Qed.

Lemma rfind_split c s i :
  Str.rfind c s = Some i ->
  exists pre post,
    s = pre ++ String c post /\ String.length pre = i /\ Str.rfind c post = None.
Proof.
  revert i. induction s as [|d s IH]; intros i; cbn; [done|].
  destruct (Str.rfind c s) as [j|] eqn:E.
  - intros [= <-]. destruct (IH j eq_refl) as (pre & post & -> & <- & Hpost).
    by exists (String d pre), post.
  - destruct (Ascii.eqb d c) eqn:Ed; [|done]. intros [= <-].
    apply Ascii.eqb_eq in Ed as ->. by exists "", s.
Qed.

Lemma substring_prefix pre s :
  substring 0 (String.length pre) (pre ++ s) = pre.
Proof.
  induction pre as [|c pre IH]; [by destruct s|].
  rewrite append_cons. simpl. by rewrite IH.
Qed.

Lemma substring_whole s : substring 0 (String.length s) s = s.
Proof. induction s as [|c s IH]; simpl; [done|]. by rewrite IH. Qed.

Lemma substring_suffix pre s :
  substring (String.length pre) (String.length (pre ++ s) - String.length pre)
    (pre ++ s) = s.
Proof.
  induction pre as [|c pre IH].
  - change ("" ++ s) with s. simpl. rewrite Nat.sub_0_r. apply substring_whole.
  - rewrite append_cons. simpl. apply IH.
Qed.

Lemma string_length_app s1 s2 :
  String.length (s1 ++ s2) = String.length s1 + String.length s2.
Proof.
  induction s1 as [|c s1 IH]; [done|]. rewrite append_cons. simpl. by rewrite IH.
Qed.

Lemma stem_suffix_split name :
  Path.stem name ++ Path.suffix name = name /\
  (Path.suffix name = "" \/
   exists post,
     Path.suffix name = String "." post /\ post <> "" /\
     Str.rfind "." post = None /\ Path.stem name <> "").
Proof.
  unfold Path.stem, Path.suffix, Path.split_at.
  destruct (Str.rfind "." name) as [i|] eqn:E.
  - destruct (rfind_split _ _ _ E) as (pre & post & -> & <- & Hpost).
    destruct ((0 <? String.length pre)%nat
              && (String.length pre <? String.length (pre ++ String "." post) - 1)%nat)
      eqn:Hc.
    + rewrite substring_prefix, substring_suffix. split; [done|]. right.
      exists post. split; [done|].
      apply andb_true_iff in Hc as [H0 H1].
      apply Nat.ltb_lt in H0, H1. rewrite string_length_app in H1. cbn in H1.
      split; [|split; [done|]].
      * intros ->. cbn in H1. lia.
      * intros ->. cbn in H0. lia.
    + split; [|by left]. apply string_app_nil_r.
  - split; [|by left]. apply string_app_nil_r.
Qed.

(** [new_filename] leaves the name as it is, or, for the animation method
    on a [.mp4] or [.webm] suffix (in any letter case), swaps that suffix
    for [.gif]: what stands before the last dot of the name is kept. *)
Theorem new_filename_swaps_suffix m name :
  let ext := Str.lower (Path.suffix name) in
  new_filename ext m name = name \/
  (m = animation /\ (ext = ".mp4" \/ ext = ".webm") /\
   exists stem sfx,
     name = stem ++ sfx /\ Str.lower sfx = ext /\ stem <> "" /\
     new_filename ext m name = stem ++ ".gif").
Proof.
  intros ext. unfold new_filename.
  destruct (bool_decide (ext ∈ ({[".mp4"; ".webm"]} : gset string))) eqn:He;
    [|by left].
  destruct (bool_decide (m = animation)) eqn:Hm; [|by left].
  apply bool_decide_eq_true_1 in He, Hm. right. split; [done|].
  rewrite elem_of_union, !elem_of_singleton in He. split; [done|].
  destruct (stem_suffix_split name) as [Hsplit [Hempty|(post & Hs & _ & _ & Hstem)]].
  - exfalso. unfold ext in He. rewrite Hempty in He. by destruct He.
  - exists (Path.stem name), (Path.suffix name). by rewrite Hsplit.
Qed.

(** ** Deletions: clearing the folder and the monitor *)

Section Deletions.

Context {World : Type} (os : Oracle World).

Lemma unlink_events name w :
  events (unlink os name w) = [EvUnlink name (path_unlink os name w).1].
Proof. unfold unlink. by destruct (path_unlink os name w). Qed.

Lemma rmtree_events name w :
  events (rmtree os name w) = [EvRmtree name (shutil_rmtree os name w).1].
Proof. unfold rmtree. by destruct (shutil_rmtree os name w). Qed.

Lemma clear_downloads_folder_events items : forall w,
  Forall2 (fun item e => deletes item.1 (is_directory item.2) e) items
    (events (clear_downloads_folder os items w)).
Proof.
  induction items as [|[name k] rest IH]; intros w; [constructor|].
  cbn [clear_downloads_folder fst snd]. rewrite events_bind.
  destruct k; rewrite ?unlink_events, ?rmtree_events; cbn [app];
    (constructor; [cbn; eauto|apply IH]).
Qed.

(** [/delete] from another chat than the owner's touches nothing.  From the
    owner it asks for one deletion per entry of the folder, in the order of
    the listing: [rmtree] for a directory, [unlink] for anything else; a
    deletion that fails does not keep the following ones from being asked
    for, and the reply is sent in any case. *)
Theorem delete_command_deletes_each_entry owner chat items w :
  (chat <> owner ->
   events (delete_command os owner chat items w) = [] /\
   value (delete_command os owner chat items w) = false) /\
  (chat = owner ->
   Forall2 (fun item e => deletes item.1 (is_directory item.2) e) items
     (events (delete_command os owner chat items w)) /\
   value (delete_command os owner chat items w) = true).
Proof.
  unfold delete_command. split; intros H.
  - by rewrite decide_True.
  - rewrite decide_False by (intros N; by apply N).
    rewrite events_bind, value_bind. cbn [ret events value].
    rewrite app_nil_r. split; [apply clear_downloads_folder_events|done].
Qed.

Lemma send_media_deletion name w :
  List.filter is_deletion (events (send_media os name w)) =
  [EvUnlink name (path_unlink os name (world (retries os name w))).1].
Proof.
  rewrite send_media_events, !List.filter_app. cbn [List.filter is_deletion].
  rewrite List.filter_app.
  assert (Hs : List.filter is_deletion (events (select_method os name w)) = []).
  { rewrite select_method_events. by case_decide. }
  assert (Hr : List.filter is_deletion (events (retries os name w)) = []).
  { unfold retries.
    pose proof (for_attempts_events os name (value (select_method os name w))
                  (seq 1 3) (list_to_set (snapshot os name w)) (settled os name w)) as H.
    induction H as [|e evs He _ IH]; [done|]. cbn [List.filter].
    destruct He as [(a & c & o & ->)| ->]; cbn; apply IH. }
  rewrite Hs, Hr. reflexivity.
Qed.

(** The deletions of a monitor pass are, in the order of the listing, one
    per entry that is a file or a directory when the loop reaches it:
    [rmtree] for a directory, [unlink] for a file, whether the file was sent
    first or not.  Nothing is deleted twice and nothing else is deleted. *)
Theorem monitor_pass_deletes_each_entry items w :
  Forall2 (fun item e => deletes item.1 (is_directory item.2) e)
    (List.filter (fun item => is_entry item.2) items)
    (List.filter is_deletion (events (monitor_pass os items w))).
Proof.
  unfold monitor_pass. rewrite events_bind, List.filter_app. cbn [sleep events].
  cbn [List.filter is_deletion]. rewrite app_nil_r.
  revert w. induction items as [|[name k] rest IH]; intros w; [constructor|].
  cbn [for_items]. rewrite events_bind, List.filter_app.
  unfold monitor_item at 1. cbn [fst snd List.filter is_entry].
  destruct k.
  - case_decide.
    + rewrite send_media_deletion. cbn [app].
      constructor; [cbn; eauto|apply IH].
    + rewrite events_bind, unlink_events. cbn [app ret events List.filter is_deletion].
      constructor; [cbn; eauto|apply IH].
  - rewrite events_bind, rmtree_events. cbn [app ret events List.filter is_deletion].
    constructor; [cbn; eauto|apply IH].
  - cbn [ret events List.filter app]. apply IH.
Qed.

End Deletions.

(** ** More on the recipient list *)

Lemma neq_refl_False (x : Z) : ¬ (x ≠ x).
Proof. intros H. by apply H. Qed.

(** The three handlers change the registry (list or file) only for the
    owner, and then only on [/add] of an integer that is not in the list,
    [/remove] of one that is, or an upload named [*.json] that holds a list:
    other senders, missing or malformed arguments, a payload that is not a
    list or does not parse, all leave it as it is. *)
Theorem registry_changes_only_when_valid owner chat w st :
  (forall args,
     (Registry.add_command owner chat args w st).1 <> st ->
     chat = owner /\
     exists x, args = Registry.FirstArg (Some x) /\ x ∉ Registry.chat_ids st) /\
  (forall args,
     (Registry.remove_command owner chat args w st).1 <> st ->
     chat = owner /\
     exists x, args = Registry.FirstArg (Some x) /\ x ∈ Registry.chat_ids st) /\
  (forall file_name p,
     (Registry.json_document_handler owner chat file_name p w st).1 <> st ->
     chat = owner /\ Str.endswith file_name ".json" = true /\
     exists data, p = Registry.PayloadList data).
Proof.
  split; [|split].
  - intros args. unfold Registry.add_command.
    case_decide as Ho; [done|].
    destruct args as [|[x|]]; [done| |done].
    case_decide; [done|]. intros _. split; [done|]. by exists x.
  - intros args. unfold Registry.remove_command.
    case_decide as Ho; [done|].
    destruct args as [|[x|]]; [done| |done].
    case_decide; [|done]. intros _. split; [done|]. by exists x.
  - intros file_name p. unfold Registry.json_document_handler.
    case_decide as Ho; [done|].
    destruct (Str.endswith file_name ".json"); [|done].
    destruct p as [| |data]; [done|done|]. intros _.
    split; [done|]. split; [done|]. by exists data.
Qed.

Lemma registry_changes_only_when_valid_witness :
  let st := Registry.State [3]%Z (FileList [3]%Z) in
  1%Z = 1%Z /\
  exists x, Registry.FirstArg (Some 4%Z) = Registry.FirstArg (Some x) /\
            x ∉ Registry.chat_ids st.
Proof.
  intros st.
  apply (proj1 (registry_changes_only_when_valid 1 1 Registry.WriteOk st)
           (Registry.FirstArg (Some 4%Z))).
  vm_compute. discriminate.
Defined.

(** A write that fails is not rolled back: after each handler the list in
    memory is the same whether the write to [chat_ids.json] went through or
    raised. *)
Theorem registry_list_ignores_write_failure owner chat w st :
  (forall args,
     Registry.chat_ids (Registry.add_command owner chat args w st).1 =
     Registry.chat_ids (Registry.add_command owner chat args Registry.WriteOk st).1) /\
  (forall args,
     Registry.chat_ids (Registry.remove_command owner chat args w st).1 =
     Registry.chat_ids (Registry.remove_command owner chat args Registry.WriteOk st).1) /\
  (forall file_name p,
     Registry.chat_ids (Registry.json_document_handler owner chat file_name p w st).1 =
     Registry.chat_ids
       (Registry.json_document_handler owner chat file_name p Registry.WriteOk st).1).
Proof.
  split; [|split].
  - intros args. unfold Registry.add_command.
    case_decide; [done|]. destruct args as [|[x|]]; [done| |done].
    case_decide; [done|]. cbn [fst]. by rewrite !update_chat_ids_file_chat_ids.
  - intros args. unfold Registry.remove_command.
    case_decide; [done|]. destruct args as [|[x|]]; [done| |done].
    case_decide; [|done]. cbn [fst]. by rewrite !update_chat_ids_file_chat_ids.
  - intros file_name p. unfold Registry.json_document_handler.
    case_decide; [done|]. destruct (Str.endswith file_name ".json"); [|done].
    destruct p; [done|done|]. cbn [fst]. by rewrite !update_chat_ids_file_chat_ids.
Qed.

Lemma persisted_after_write st : persisted (Registry.update_chat_ids_file Registry.WriteOk st).
Proof. reflexivity. Qed.

(** What is read at start-up is a registry that a restart would read again;
    and from such a registry, every handler whose write goes through leaves
    one: the list in memory after the command is the list the next start
    reads from [chat_ids.json]. *)
Theorem registry_persisted_invariant owner chat st :
  (forall file, persisted (Registry.load file)) /\
  (persisted st ->
   (forall args,
      persisted (Registry.add_command owner chat args Registry.WriteOk st).1) /\
   (forall args,
      persisted (Registry.remove_command owner chat args Registry.WriteOk st).1) /\
   (forall file_name p,
      persisted
        (Registry.json_document_handler owner chat file_name p Registry.WriteOk st).1)).
Proof.
  split; [by intros [| |l]|]. intros Hst. split; [|split].
  - intros args. unfold Registry.add_command.
    case_decide; [done|]. destruct args as [|[x|]]; [done| |done].
    case_decide; [done|]. apply persisted_after_write.
  - intros args. unfold Registry.remove_command.
    case_decide; [done|]. destruct args as [|[x|]]; [done| |done].
    case_decide; [|done]. apply persisted_after_write.
  - intros file_name p. unfold Registry.json_document_handler.
    case_decide; [done|]. destruct (Str.endswith file_name ".json"); [|done].
    destruct p; [done|done|]. apply persisted_after_write.
Qed.

Lemma registry_persisted_invariant_witness :
  persisted
    (Registry.remove_command 1 1 (Registry.FirstArg (Some 3%Z)) Registry.WriteOk
       (Registry.load (FileList [3; 4]%Z))).1.
Proof.
  apply (proj1 (proj2 (proj2 (registry_persisted_invariant 1 1
                                (Registry.load (FileList [3; 4]%Z))) eq_refl))).
Defined.

(** After the owner's [/add x] the list holds [x], whatever the write did;
    a second [/add x] changes nothing and answers that [x] is already in
    the list. *)
Theorem add_command_then_member owner x w st :
  let st1 := (Registry.add_command owner owner (Registry.FirstArg (Some x)) w st).1 in
  x ∈ Registry.chat_ids st1 /\
  forall w',
    Registry.add_command owner owner (Registry.FirstArg (Some x)) w' st1 =
    (st1, [Registry.ReplyAlreadyInList x]).
Proof.
  intros st1.
  assert (Hin : x ∈ Registry.chat_ids st1).
  { subst st1. unfold Registry.add_command.
    rewrite decide_False by apply neq_refl_False.
    case_decide; [done|]. cbn [fst]. rewrite update_chat_ids_file_chat_ids. cbn.
    apply elem_of_app. right. by apply list_elem_of_singleton. }
  split; [done|]. intros w'. unfold Registry.add_command at 1.
  rewrite decide_False by apply neq_refl_False. by rewrite decide_True.
Qed.

Lemma list_remove_Permutation x l : x ∈ l -> l ≡ₚ x :: list_remove x l.
Proof.
  induction l as [|y l IH]; intros Hx; [by apply elem_of_nil in Hx|].
  simpl. case_decide as E; [by subst|].
  apply elem_of_cons in Hx as [->|Hx]; [done|].
  rewrite (IH Hx) at 1. apply Permutation_swap.
Qed.

Lemma remove_command_present_perm owner x w st :
  x ∈ Registry.chat_ids st ->
  let st1 := (Registry.remove_command owner owner (Registry.FirstArg (Some x)) w st).1 in
  Registry.chat_ids st ≡ₚ x :: Registry.chat_ids st1 /\
  (NoDup (Registry.chat_ids st) -> x ∉ Registry.chat_ids st1).
Proof.
  intros Hx st1. subst st1. rewrite remove_command_present by done.
  rewrite update_chat_ids_file_chat_ids. cbn [Registry.chat_ids].
  pose proof (list_remove_Permutation x _ Hx) as Hp. split; [done|].
  intros Hnd. rewrite Hp in Hnd. by apply NoDup_cons in Hnd as [? _].
Qed.

(** The owner's [/remove x] of an identifier that is in the list takes out
    one occurrence of it and nothing else: the old list is a permutation of
    [x] followed by the new one.  On a list without duplicates [x] is then
    gone. *)
Theorem remove_command_takes_one owner x w st :
  x ∈ Registry.chat_ids st ->
  let st1 := (Registry.remove_command owner owner (Registry.FirstArg (Some x)) w st).1 in
  Registry.chat_ids st ≡ₚ x :: Registry.chat_ids st1 /\
  (NoDup (Registry.chat_ids st) -> x ∉ Registry.chat_ids st1).
Proof. apply remove_command_present_perm. Qed.

Lemma remove_command_takes_one_witness :
  let st := Registry.State [3; 4; 3]%Z (FileList [3; 4; 3]%Z) in
  Registry.chat_ids st ≡ₚ
  3%Z :: Registry.chat_ids
           (Registry.remove_command 1 1 (Registry.FirstArg (Some 3%Z))
              Registry.WriteOk st).1.
Proof.
  intros st.
  apply (proj1 (remove_command_takes_one 1%Z 3%Z Registry.WriteOk st
                  ltac:(apply elem_of_cons; by left))).
Defined.

(** On a list without duplicates that holds [x], the owner's [/remove x]
    followed by [/add x] gives the same identifiers back, [x] having moved
    to the end: the new list is a permutation of the old one. *)
Theorem remove_then_add_permutes owner x w1 w2 st :
  NoDup (Registry.chat_ids st) ->
  x ∈ Registry.chat_ids st ->
  let st1 := (Registry.remove_command owner owner (Registry.FirstArg (Some x)) w1 st).1 in
  let st2 := (Registry.add_command owner owner (Registry.FirstArg (Some x)) w2 st1).1 in
  Registry.chat_ids st2 = (list_remove x (Registry.chat_ids st) ++ [x])%list /\
  Registry.chat_ids st2 ≡ₚ Registry.chat_ids st.
Proof.
  intros Hnd Hx st1 st2.
  destruct (remove_command_present_perm owner x w1 st Hx) as [Hp Hfresh].
  specialize (Hfresh Hnd). fold st1 in Hp, Hfresh.
  assert (E1 : Registry.chat_ids st1 = list_remove x (Registry.chat_ids st)).
  { subst st1. rewrite remove_command_present by done.
    by rewrite update_chat_ids_file_chat_ids. }
  assert (E2 : Registry.chat_ids st2 = (Registry.chat_ids st1 ++ [x])%list).
  { subst st2. rewrite add_command_fresh by done.
    by rewrite update_chat_ids_file_chat_ids. }
  split; [by rewrite E2, E1|].
  rewrite E2, Hp. symmetry. apply Permutation_cons_append.
Qed.

Lemma remove_then_add_permutes_witness :
  let st := Registry.State [3; 4; 5]%Z (FileList [3; 4; 5]%Z) in
  Registry.chat_ids
    (Registry.add_command 1 1 (Registry.FirstArg (Some 3%Z)) Registry.WriteOk
       (Registry.remove_command 1 1 (Registry.FirstArg (Some 3%Z)) Registry.WriteOk st).1).1
  ≡ₚ Registry.chat_ids st.
Proof.
  intros st.
  apply (proj2 (remove_then_add_permutes 1%Z 3%Z Registry.WriteOk Registry.WriteOk st
                  ltac:(apply (bool_decide_unpack _); vm_compute; exact I)
                  ltac:(apply elem_of_cons; by left))).
Defined.

(** ** More on the ingestion side *)

Lemma load_blocked_chat_ids_file file :
  (Login.load_blocked_chat_ids file).2 = FileList (Login.load_blocked_chat_ids file).1.
Proof. by destruct file. Qed.

Lemma load_blocked_chat_ids_list l :
  Login.load_blocked_chat_ids (FileList l) = (l, FileList l).
Proof. reflexivity. Qed.

Lemma new_media_handler_cases ev file :
  let blocked := (Login.load_blocked_chat_ids file).1 in
  (Login.new_media_handler ev file).1 = [] \/
  exists msg identifier,
    Login.event_message ev = Some msg /\ Login.media msg = true /\
    identifier = match Login.truthy_id (Login.sender_id msg) with
                 | Some s => s
                 | None => Login.chat_id ev
                 end /\
    (Login.chat_id ev ∉ blocked) /\ (identifier ∉ blocked) /\
    (Login.new_media_handler ev file).1 =
    ["downloads/" ++
     Login.file_name_of identifier (Login.id msg)
       (match Login.document msg with
        | Some attrs => Login.scan_attributes attrs None
        | None => None
        end)].
Proof.
  intros blocked. subst blocked. unfold Login.new_media_handler.
  destruct (Login.event_message ev) as [msg|]; [|by left].
  destruct (Login.media msg) eqn:Hm; [|by left].
  destruct (Login.load_blocked_chat_ids file) as [blocked file']. cbn [fst].
  destruct (bool_decide (Login.chat_id ev ∈ blocked)) eqn:Hc; [by left|].
  apply bool_decide_eq_false_1 in Hc. cbn [orb].
  destruct (Login.truthy_id (Login.sender_id msg)) as [s|] eqn:Hs.
  - destruct (bool_decide (s ∈ blocked)) eqn:Hb; [by left|].
    apply bool_decide_eq_false_1 in Hb. right. exists msg, s.
    repeat split; try done. by rewrite Hs.
  - right. exists msg, (Login.chat_id ev).
    repeat split; try done. by rewrite Hs.
Qed.

(** The handler asks for at most one download.  When it asks for one, the
    message has media, neither the chat identifier nor the identifier that
    names the file (the sender's when it is there and not 0, the chat's
    otherwise) is in the blocklist as reloaded, and the path is the file name
    made of that identifier, the message identifier and the media type,
    inside [downloads]. *)
Theorem new_media_handler_download ev file :
  let blocked := (Login.load_blocked_chat_ids file).1 in
  (Login.new_media_handler ev file).1 = [] \/
  exists msg identifier,
    Login.event_message ev = Some msg /\ Login.media msg = true /\
    identifier = match Login.truthy_id (Login.sender_id msg) with
                 | Some s => s
                 | None => Login.chat_id ev
                 end /\
    (Login.chat_id ev ∉ blocked) /\ (identifier ∉ blocked) /\
    (Login.new_media_handler ev file).1 =
    ["downloads/" ++
     Login.file_name_of identifier (Login.id msg)
       (match Login.document msg with
        | Some attrs => Login.scan_attributes attrs None
        | None => None
        end)].
Proof. apply new_media_handler_cases. Qed.

Lemma scan_attributes_decide attrs : forall mt,
  mt <> Some Login.gif ->
  Login.scan_attributes attrs mt =
  if decide (Login.DocumentAttributeAnimation ∈ attrs) then Some Login.gif
  else if decide (Login.DocumentAttributeVideo ∈ attrs) then Some Login.video
  else mt.
Proof.
  induction attrs as [|a attrs IH]; intros mt Hmt.
  - rewrite !decide_False by apply not_elem_of_nil. reflexivity.
  - destruct a; cbn [Login.scan_attributes].
    + rewrite decide_True by (apply elem_of_cons; by left). reflexivity.
    + rewrite IH by done.
      repeat case_decide; try reflexivity;
        repeat match goal with
               | H : _ ∈ _ :: _ |- _ => apply elem_of_cons in H as [H|H]
               | H : _ ∉ _ :: _ |- _ => apply not_elem_of_cons in H as [? ?]
               end; done.
    + rewrite IH by done.
      repeat case_decide; try reflexivity;
        repeat match goal with
               | H : _ ∈ _ :: _ |- _ => apply elem_of_cons in H as [H|H]
               | H : _ ∉ _ :: _ |- _ => apply not_elem_of_cons in H as [? ?]
               end; done.
Qed.

(** The media type read off a document's attributes: [gif] exactly when
    one of them is the animation attribute, wherever it stands; [video]
    exactly when none is and one is the video attribute; none otherwise. *)
Theorem scan_attributes_gif_first attrs :
  (Login.scan_attributes attrs None = Some Login.gif <->
   Login.DocumentAttributeAnimation ∈ attrs) /\
  (Login.scan_attributes attrs None = Some Login.video <->
   (Login.DocumentAttributeAnimation ∉ attrs) /\
   (Login.DocumentAttributeVideo ∈ attrs)) /\
  (Login.scan_attributes attrs None = None <->
   (Login.DocumentAttributeAnimation ∉ attrs) /\
   (Login.DocumentAttributeVideo ∉ attrs)).
Proof.
  rewrite scan_attributes_decide by done.
  repeat case_decide; repeat split; try done; intros Hx; try discriminate Hx;
    try (destruct Hx as [? ?]; done).
Qed.

Lemma handler_skips_blocked ev msg file :
  Login.event_message ev = Some msg ->
  Login.media msg = true ->
  (Login.chat_id ev ∈ (Login.load_blocked_chat_ids file).1 \/
   exists s, Login.sender_id msg = Some s /\ s <> 0%Z /\
             s ∈ (Login.load_blocked_chat_ids file).1) ->
  (Login.new_media_handler ev file).1 = [].
Proof.
  intros Hmsg Hmedia Hblocked.
  destruct (new_media_handler_cases ev file)
    as [E|(msg' & i & Hmsg' & _ & Hi & Hc & Hb & _)]; [done|].
  rewrite Hmsg in Hmsg'. injection Hmsg' as <-.
  destruct Hblocked as [H|(s & Hs & Hnz & Hin)]; [done|].
  rewrite Hs in Hi. unfold Login.truthy_id in Hi.
  rewrite decide_False in Hi by done. by subst.
Qed.

Lemma ban_handler_owner owner x w file :
  Blocklist.ban_handler owner (Some owner) (Blocklist.TwoParts (Some x)) w file =
  let blocked := (Login.load_blocked_chat_ids file).1 in
  if decide (x ∈ blocked)
  then ((Login.load_blocked_chat_ids file).2, [Blocklist.ReplyAlreadyBanned x])
  else Blocklist.save_and_reply w (blocked ++ [x])%list (Blocklist.ReplyBanned x).
Proof.
  unfold Blocklist.ban_handler. rewrite decide_False by (intros H; by apply H).
  by destruct (Login.load_blocked_chat_ids file).
Qed.

Lemma unban_handler_owner owner x w file :
  Blocklist.unban_handler owner (Some owner) (Blocklist.TwoParts (Some x)) w file =
  let blocked := (Login.load_blocked_chat_ids file).1 in
  if decide (x ∉ blocked)
  then ((Login.load_blocked_chat_ids file).2, [Blocklist.ReplyNotBanned x])
  else Blocklist.save_and_reply w (list_remove x blocked) (Blocklist.ReplyUnbanned x).
Proof.
  unfold Blocklist.unban_handler. rewrite decide_False by (intros H; by apply H).
  by destruct (Login.load_blocked_chat_ids file).
Qed.

(** After the owner's [/ban x] with the write going through, whatever the
    blocklist file held before, a media message from chat [x], or from
    sender [x] when [x] is not 0, is not downloaded. *)
Theorem ban_then_media_is_skipped owner x file ev msg :
  Login.event_message ev = Some msg ->
  Login.media msg = true ->
  Login.chat_id ev = x \/ (Login.sender_id msg = Some x /\ x <> 0%Z) ->
  let file1 :=
    (Blocklist.ban_handler owner (Some owner) (Blocklist.TwoParts (Some x))
       Registry.WriteOk file).1 in
  (Login.new_media_handler ev file1).1 = [].
Proof.
  intros Hmsg Hmedia Hx file1.
  assert (Hin : x ∈ (Login.load_blocked_chat_ids file1).1).
  { subst file1. rewrite ban_handler_owner. cbn zeta. case_decide as Hb.
    - cbn [fst]. by rewrite load_blocked_chat_ids_file, load_blocked_chat_ids_list.
    - cbn. apply elem_of_app. right. by apply list_elem_of_singleton. }
  apply (handler_skips_blocked ev msg file1 Hmsg Hmedia).
  destruct Hx as [->|[Hs Hnz]]; [by left|]. right. by exists x.
Qed.

Lemma ban_then_media_is_skipped_witness :
  (Login.new_media_handler
     (Login.NewMessage (Some (Login.Message true None 9%Z None)) (-100)%Z)
     (Blocklist.ban_handler 1 (Some 1%Z) (Blocklist.TwoParts (Some (-100)%Z))
        Registry.WriteOk FileMissing).1).1 = [].
Proof.
  apply (ban_then_media_is_skipped 1%Z (-100)%Z FileMissing
           (Login.NewMessage (Some (Login.Message true None 9%Z None)) (-100)%Z)
           (Login.Message true None 9%Z None)).
  - reflexivity.
  - reflexivity.
  - by left.
Defined.

(** The owner's [/ban x] of an identifier that is not in the blocklist,
    followed by [/unban x], both writes going through, leaves the file
    holding the list that was read at the start. *)
Theorem ban_then_unban_restores owner x file :
  x ∉ (Login.load_blocked_chat_ids file).1 ->
  let file1 :=
    (Blocklist.ban_handler owner (Some owner) (Blocklist.TwoParts (Some x))
       Registry.WriteOk file).1 in
  (Blocklist.unban_handler owner (Some owner) (Blocklist.TwoParts (Some x))
     Registry.WriteOk file1).1 = FileList (Login.load_blocked_chat_ids file).1.
Proof.
  intros Hx file1. subst file1. rewrite ban_handler_owner. cbn zeta.
  rewrite decide_False by done. cbn [Blocklist.save_and_reply fst].
  rewrite unban_handler_owner. cbn zeta. rewrite load_blocked_chat_ids_list.
  cbn [fst snd]. rewrite decide_False.
  - cbn. by rewrite list_remove_app_fresh.
  - intros H. apply H. apply elem_of_app. right. by apply list_elem_of_singleton.
Qed.

Lemma ban_then_unban_restores_witness :
  (Blocklist.unban_handler 1 (Some 1%Z) (Blocklist.TwoParts (Some 7%Z)) Registry.WriteOk
     (Blocklist.ban_handler 1 (Some 1%Z) (Blocklist.TwoParts (Some 7%Z))
        Registry.WriteOk FileInvalid).1).1 = FileList [].
Proof.
  apply (ban_then_unban_restores 1%Z 7%Z FileInvalid).
  cbn. apply not_elem_of_nil.
Defined.

(** On a blocklist without duplicates, the owner's [/unban x] with the
    write going through leaves a list that no longer holds [x], so that a
    media message from chat [x] whose sender is not given is downloaded
    again. *)
Theorem unban_then_media_is_downloaded owner x file ev msg :
  NoDup (Login.load_blocked_chat_ids file).1 ->
  Login.event_message ev = Some msg ->
  Login.media msg = true ->
  Login.chat_id ev = x ->
  Login.sender_id msg = None ->
  let file1 :=
    (Blocklist.unban_handler owner (Some owner) (Blocklist.TwoParts (Some x))
       Registry.WriteOk file).1 in
  (x ∉ (Login.load_blocked_chat_ids file1).1) /\
  exists path, (Login.new_media_handler ev file1).1 = [path].
Proof.
  intros Hnd Hmsg Hmedia Hc Hs file1.
  assert (Hout : x ∉ (Login.load_blocked_chat_ids file1).1).
  { subst file1. rewrite unban_handler_owner. cbn zeta. case_decide as Hb.
    - cbn [fst]. by rewrite load_blocked_chat_ids_file, load_blocked_chat_ids_list.
    - cbn.
      pose proof (list_remove_Permutation x _ Hb) as Hp.
      rewrite Hp in Hnd. by apply NoDup_cons in Hnd as [? _]. }
  split; [done|]. unfold Login.new_media_handler.
  rewrite Hmsg, Hmedia, Hs.
  destruct (Login.load_blocked_chat_ids file1) as [blocked file'] eqn:E.
  cbn [fst] in Hout. rewrite Hc.
  rewrite bool_decide_eq_false_2 by done. cbn. eauto.
Qed.

Lemma unban_then_media_is_downloaded_witness :
  exists path,
    (Login.new_media_handler
       (Login.NewMessage (Some (Login.Message true None 9%Z None)) 5%Z)
       (Blocklist.unban_handler 1 (Some 1%Z) (Blocklist.TwoParts (Some 5%Z))
          Registry.WriteOk (FileList [4; 5]%Z)).1).1 = [path].
Proof.
  apply (unban_then_media_is_downloaded 1%Z 5%Z (FileList [4; 5]%Z)
           (Login.NewMessage (Some (Login.Message true None 9%Z None)) 5%Z)
           (Login.Message true None 9%Z None)).
  - apply (bool_decide_unpack _). vm_compute. exact I.
  - reflexivity.
  - reflexivity.
  - reflexivity.
  - reflexivity.
Defined.

(** [/ban] and [/unban] change the blocklist file only for the owner and
    an integer argument; and whoever sends them, with the write going
    through, a blocklist without duplicates stays without duplicates. *)
Theorem blocklist_commands_guarded owner sender parts file :
  ((Blocklist.ban_handler owner sender parts Registry.WriteOk file).1 <> file ->
   sender = Some owner /\ exists x, parts = Blocklist.TwoParts (Some x)) /\
  ((Blocklist.unban_handler owner sender parts Registry.WriteOk file).1 <> file ->
   sender = Some owner /\ exists x, parts = Blocklist.TwoParts (Some x)) /\
  (NoDup (Login.load_blocked_chat_ids file).1 ->
   NoDup (Login.load_blocked_chat_ids
            (Blocklist.ban_handler owner sender parts Registry.WriteOk file).1).1 /\
   NoDup (Login.load_blocked_chat_ids
            (Blocklist.unban_handler owner sender parts Registry.WriteOk file).1).1).
Proof.
  split; [|split].
  - unfold Blocklist.ban_handler. case_decide as Ho; [done|].
    destruct parts as [|[x|]]; [done| |done].
    intros _. split; [done|]. by exists x.
  - unfold Blocklist.unban_handler. case_decide as Ho; [done|].
    destruct parts as [|[x|]]; [done| |done].
    intros _. split; [done|]. by exists x.
  - intros Hnd. split.
    + unfold Blocklist.ban_handler. case_decide; [done|].
      destruct parts as [|[x|]]; [done| |done].
      destruct (Login.load_blocked_chat_ids file) as [blocked file'] eqn:E.
      cbn [fst] in Hnd. case_decide as Hb.
      * pose proof (load_blocked_chat_ids_file file) as Hf. rewrite E in Hf.
        cbn [fst snd] in *. by rewrite Hf.
      * cbn. apply NoDup_app. split; [done|]. split; [|apply NoDup_singleton].
        intros i Hi Hi'. apply list_elem_of_singleton in Hi'. by subst.
    + unfold Blocklist.unban_handler. case_decide; [done|].
      destruct parts as [|[x|]]; [done| |done].
      destruct (Login.load_blocked_chat_ids file) as [blocked file'] eqn:E.
      cbn [fst] in Hnd. case_decide as Hb.
      * pose proof (load_blocked_chat_ids_file file) as Hf. rewrite E in Hf.
        cbn [fst snd] in *. by rewrite Hf.
      * cbn. by apply list_remove_NoDup.
Qed.

(** ** Staging file names *)

Lemma string_of_uint_digits d : all_digits (NilEmpty.string_of_uint d) = true.
Proof. induction d; simpl; by rewrite ?IHd. Qed.

Lemma string_of_uint_nonempty d : d <> Decimal.Nil -> NilEmpty.string_of_uint d <> "".
Proof. by destruct d. Qed.

Lemma str_numeral z : numeral (Login.str z).
Proof.
  unfold Login.str. destruct z as [|p|p]; cbn [Z.to_int NilEmpty.string_of_int].
  - exists "0". split; [done|]. split; [done|]. by left.
  - exists (NilEmpty.string_of_uint (Pos.to_uint p)).
    split; [apply string_of_uint_digits|].
    split; [apply string_of_uint_nonempty, Unsigned.to_uint_nonnil|]. by left.
  - exists (NilEmpty.string_of_uint (Pos.to_uint p)).
    split; [apply string_of_uint_digits|].
    split; [apply string_of_uint_nonempty, Unsigned.to_uint_nonnil|]. by right.
Qed.

Lemma str_inj z z' : Login.str z = Login.str z' -> z = z'.
Proof.
  unfold Login.str. intros E. apply DecimalZ.to_int_inj.
  apply (f_equal NilEmpty.int_of_string) in E. rewrite !NilEmpty.isi in E.
  by injection E.
Qed.

Lemma digits_split ds : forall ds' r r',
  all_digits ds = true -> all_digits ds' = true ->
  starts_nondigit r = true -> starts_nondigit r' = true ->
  ds ++ r = ds' ++ r' -> ds = ds' /\ r = r'.
Proof.
  induction ds as [|c ds IH]; intros [|c' ds'] r r' Hd Hd' Hr Hr' E.
  - done.
  - change ("" ++ r) with r in E. rewrite append_cons in E. subst r.
    cbn in Hd', Hr. apply andb_true_iff in Hd' as [Hc _].
    by rewrite Hc in Hr.
  - change ("" ++ r') with r' in E. rewrite append_cons in E. subst r'.
    cbn in Hd, Hr'. apply andb_true_iff in Hd as [Hc _].
    by rewrite Hc in Hr'.
  - rewrite !append_cons in E. injection E as -> E.
    cbn in Hd, Hd'. apply andb_true_iff in Hd as [_ Hd].
    apply andb_true_iff in Hd' as [_ Hd'].
    destruct (IH ds' r r' Hd Hd' Hr Hr' E) as [-> ->]. done.
Qed.

Lemma numeral_split s s' r r' :
  numeral s -> numeral s' ->
  starts_nondigit r = true -> starts_nondigit r' = true ->
  s ++ r = s' ++ r' -> s = s' /\ r = r'.
Proof.
  intros (ds & Hd & Hne & Hs) (ds' & Hd' & Hne' & Hs') Hr Hr' E.
  destruct Hs as [->| ->], Hs' as [->| ->].
  - by apply digits_split.
  - destruct ds as [|c ds]; [done|]. rewrite !append_cons in E.
    injection E as -> _. cbn in Hd. done.
  - destruct ds' as [|c ds']; [done|]. rewrite !append_cons in E.
    injection E as <- _. cbn in Hd'. done.
  - rewrite !append_cons in E. injection E as E.
    destruct (digits_split ds ds' r r' Hd Hd' Hr Hr' E) as [-> ->]. done.
Qed.

Lemma append_assoc (s1 s2 s3 : string) : (s1 ++ s2) ++ s3 = s1 ++ (s2 ++ s3).
Proof.
  induction s1 as [|c s1 IH]; [done|]. by rewrite !append_cons, IH.
Qed.

Lemma name_assoc a b sfx : (a ++ "-" ++ b) ++ sfx = a ++ String "-" (b ++ sfx).
Proof. by rewrite append_assoc. Qed.

(** The staging file name determines what it was made of: two media
    messages get the same name only if they have the same identifier, the
    same message identifier and the same media type. *)
Theorem file_name_of_inj identifier message_id mt identifier' message_id' mt' :
  Login.file_name_of identifier message_id mt =
  Login.file_name_of identifier' message_id' mt' ->
  identifier = identifier' /\ message_id = message_id' /\ mt = mt'.
Proof.
  unfold Login.file_name_of. intros E.
  set (sfx := fun mt : option Login.media_type =>
                match mt with
                | Some Login.gif => "-gif"
                | Some Login.video => "-video"
                | None => ""
                end).
  assert (E' : Login.str identifier ++ String "-" (Login.str message_id ++ sfx mt) =
               Login.str identifier' ++ String "-" (Login.str message_id' ++ sfx mt')).
  { destruct mt as [[|]|], mt' as [[|]|]; cbn [sfx];
      rewrite <- ?name_assoc, ?string_app_nil_r; exact E. }
  destruct (numeral_split (Login.str identifier) (Login.str identifier')
              (String "-" (Login.str message_id ++ sfx mt))
              (String "-" (Login.str message_id' ++ sfx mt'))
              (str_numeral identifier) (str_numeral identifier')
              eq_refl eq_refl E') as [Hi Hrest].
  injection Hrest as Hrest.
  assert (Hsfx : forall o, starts_nondigit (sfx o) = true) by by intros [[|]|].
  destruct (numeral_split _ _ _ _ (str_numeral message_id) (str_numeral message_id')
              (Hsfx mt) (Hsfx mt') Hrest) as [Hm Hs].
  split; [by apply str_inj|]. split; [by apply str_inj|].
  destruct mt as [[|]|], mt' as [[|]|]; cbn in Hs; done.
Qed.

Lemma file_name_of_inj_witness :
  (42%Z = 42%Z /\ 100%Z = 100%Z /\ Some Login.video = Some Login.video).
Proof.
  apply (file_name_of_inj 42 100 (Some Login.video) 42 100 (Some Login.video)).
  reflexivity.
Defined.

(** ** How a file is presented *)

Section Presentation.

Context {World : Type} (os : Oracle World).

(** The file name and caption that every send of a run carries.  The name
    shown is the stem followed by [.gif] for a [.webm] file and for a [.mp4]
    file in which the probe found no audio, and the name of the staged file
    in every other case; the caption is left out for a [.webp] file only,
    and is otherwise the escaped name in a [<code>] element. *)
Theorem request_presentation name c w :
  let ext := Str.lower (Path.suffix name) in
  let req := request name (value (select_method os name w)) c in
  sr_filename req =
  (if decide (ext = ".webm" \/ (ext = ".mp4" /\ value (has_audio os name w) = false))
   then Path.stem name ++ ".gif" else name) /\
  sr_caption req =
  (if decide (ext = ".webp") then None
   else Some ("<code>" ++ Str.escape name ++ "</code>")).
Proof.
  intros ext req. subst req. unfold request. cbn [sr_filename sr_caption].
  fold ext. split.
  - unfold new_filename.
    destruct (decide (ext = ".webm")) as [Ew|Ew];
      [|destruct (decide (ext = ".mp4")) as [Em|Em]].
    + rewrite decide_True by by left.
      assert (value (select_method os name w) = animation) as ->.
      { unfold select_method. fold ext. rewrite Ew. decide_literals. reflexivity. }
      rewrite Ew. reflexivity.
    + rewrite (select_method_mp4 os name w Em). cbn [value].
      destruct (value (has_audio os name w)).
      * rewrite decide_False by (intros [?|[_ ?]]; done).
        rewrite Em. reflexivity.
      * rewrite decide_True by (right; done). rewrite Em. reflexivity.
    + rewrite decide_False by (intros [?|[? _]]; done).
      rewrite bool_decide_eq_false_2; [done|].
      rewrite elem_of_union, !elem_of_singleton. tauto.
  - unfold caption_of.
    destruct (select_method_table os name w) as (_ & _ & _ & Hs & _).
    fold ext in Hs. unfold sticker_ext in Hs. rewrite elem_of_singleton in Hs.
    repeat case_decide; try done; tauto.
Qed.

End Presentation.
